(** * Local LLM Chat: history trimming, suggestion extraction, path validation
    and the endpoint adapter, embedded from the TypeScript/JavaScript sources.

    Conventions of the embedding.
    - A JavaScript string is a [string]; one [ascii] stands for one code unit in
      the range U+0000..U+00FF.
    - A JavaScript number that the program uses as a count or a bound is a [Z]
      (an HTTP status is an [N]).
    - A thrown [Error] is a record with its [name] and [message]; a function that
      may throw returns a sum whose left side is the thrown value.
    - Collaborators that live outside the repository (the [path] module of the
      host runtime, the HTTP transport, the slash-command handlers) are
      interfaces with the behaviour the program relies on. *)

From Stdlib Require Import Bool Arith ZArith NArith List Lia.
From Stdlib Require Import Strings.Ascii Strings.String.
From Stdlib Require Import Numbers.DecimalString.
Import ListNotations.

Open Scope string_scope.
Open Scope Z_scope.

(* ------------------------------------------------------------------------- *)
(** ** JavaScript values used by the program *)

Module Js.

(** The characters that cannot be written inside a literal here. *)
Definition dquote : ascii := ascii_of_nat 34.
Definition lf : ascii := ascii_of_nat 10.
Definition cr : ascii := ascii_of_nat 13.
Definition nul : ascii := ascii_of_nat 0.
Definition backtick : ascii := ascii_of_nat 96.

Definition chr (c : ascii) : string := String c "".

(** [WhiteSpace] and [LineTerminator] code units below U+0100: TAB, LF, VT, FF,
    CR, SPACE and NO-BREAK SPACE.  Both [String.prototype.trim] and the regular
    expression class [\s] use this set. *)
Definition isWhiteSpace (c : ascii) : bool :=
  let n := nat_of_ascii c in
  ((9 <=? n) && (n <=? 13) || (n =? 32) || (n =? 160))%nat.

Definition isEmpty (s : string) : bool :=
  match s with
  | EmptyString => true
  | String _ _ => false
  end.

(** Truthiness of a string value: [!s] holds exactly for the empty string. *)
Definition truthy (s : string) : bool := negb (isEmpty s).

Fixpoint trimStart (s : string) : string :=
  match s with
  | String c s' => if isWhiteSpace c then trimStart s' else s
  | EmptyString => EmptyString
  end.

Fixpoint trimEnd (s : string) : string :=
  match s with
  | String c s' =>
      let r := trimEnd s' in
      if isWhiteSpace c && isEmpty r then EmptyString else String c r
  | EmptyString => EmptyString
  end.

(** [s.trim()] *)
Definition trim (s : string) : string := trimEnd (trimStart s).

(** [s.startsWith(p)] *)
Definition startsWith (s p : string) : bool := String.prefix p s.

(** [s.includes(p)] *)
Fixpoint includes (s p : string) : bool :=
  String.prefix p s ||
  match s with
  | String _ s' => includes s' p
  | EmptyString => false
  end.

(** [true] when some code unit of [s] satisfies [p]: a one-character class
    tested anywhere in the string. *)
Fixpoint anyChar (p : ascii -> bool) (s : string) : bool :=
  match s with
  | String c s' => p c || anyChar p s'
  | EmptyString => false
  end.

Fixpoint lastChar (s : string) : option ascii :=
  match s with
  | EmptyString => None
  | String c EmptyString => Some c
  | String _ s' => lastChar s'
  end.

(** Longest prefix of [s] whose characters satisfy [p], and what follows. *)
Fixpoint span (p : ascii -> bool) (s : string) : string * string :=
  match s with
  | String c s' =>
      if p c then let (a, b) := span p s' in (String c a, b) else (EmptyString, s)
  | EmptyString => (EmptyString, EmptyString)
  end.

(** [Array.prototype.slice(start)] with an integral [start]: a negative start
    counts from the end, and the start is clamped to the array. *)
Definition slice {A : Type} (l : list A) (start : Z) : list A :=
  let len := Z.of_nat (List.length l) in
  let k := if start <? 0 then Z.max (len + start) 0 else Z.min start len in
  skipn (Z.to_nat k) l.

(** A thrown value: an [Error] object. *)
Record Error := mkError { name : string; message : string }.

(** [new Error(msg)] *)
Definition newError (msg : string) : Error := mkError "Error" msg.

(** Decimal rendering of a non-negative integer, as a template literal does. *)
Definition decimal (n : N) : string := NilZero.string_of_uint (N.to_uint n).

Definition digitChar (d : N) : ascii := ascii_of_N (48 + d).

(** The digits after the decimal point of [f / 1000] for [0 < f < 1000],
    without trailing zeros. *)
Definition fractionOfThousand (f : N) : string :=
  let d1 := (f / 100)%N in
  let d2 := ((f / 10) mod 10)%N in
  let d3 := (f mod 10)%N in
  if negb (d3 =? 0)%N then String (digitChar d1) (String (digitChar d2) (chr (digitChar d3)))
  else if negb (d2 =? 0)%N then String (digitChar d1) (chr (digitChar d2))
  else chr (digitChar d1).

(** The text of [n / 1000] in a template literal, for an integral [n] below
    10^15 in magnitude: the quotient is then rendered by its exact decimal
    expansion, an integer when 1000 divides [n] and otherwise with up to three
    fractional digits. *)
Definition thousandthsText (n : Z) : string :=
  let a := Z.abs_N n in
  let body :=
    decimal (a / 1000)
      ++ (if (a mod 1000 =? 0)%N then "" else "." ++ fractionOfThousand (a mod 1000)%N) in
  if n <? 0 then "-" ++ body else body.

(** The delay that [setTimeout(f, ms)] of the runtime gives its timer, for an
    integral [ms]: a delay below 1 or above 2147483647 is set to 1. *)
Definition TIMEOUT_MAX : Z := 2147483647.

Definition timerDelay (ms : Z) : Z :=
  if (1 <=? ms) && (ms <=? TIMEOUT_MAX) then ms else 1.

(** The test [!s || s.trim().length === 0] that the program uses for a value
    that is missing or blank. *)
Definition blank (s : string) : bool :=
  negb (truthy s) || (String.length (trim s) =? 0)%nat.

(** [true] when every code unit of [s] satisfies [p]. *)
Fixpoint allChars (p : ascii -> bool) (s : string) : bool :=
  match s with
  | String c s' => p c && allChars p s'
  | EmptyString => true
  end.

(** [s.toLowerCase()], one code unit at a time: the letters A to Z and the
    capital letters of the range U+00C0..U+00DE (the multiplication sign
    apart) move up by 32. *)
Definition toLowerChar (c : ascii) : ascii :=
  let n := nat_of_ascii c in
  if ((65 <=? n) && (n <=? 90) || (192 <=? n) && (n <=? 222) && negb (n =? 215))%nat
  then ascii_of_nat (n + 32)
  else c.

Fixpoint toLowerCase (s : string) : string :=
  match s with
  | String c s' => String (toLowerChar c) (toLowerCase s')
  | EmptyString => EmptyString
  end.

(** [s.split(/\s+/)]: the pieces between runs of white space; [cur] is the
    piece being read and [inSeparator] tells that the last character belonged
    to a separator. *)
Fixpoint splitLoop (s cur : string) (inSeparator : bool) : list string :=
  match s with
  | EmptyString => [cur]
  | String c s' =>
      if isWhiteSpace c then
        if inSeparator then splitLoop s' cur true else cur :: splitLoop s' "" true
      else splitLoop s' (cur ++ chr c) false
  end.

Definition splitWhiteSpace (s : string) : list string := splitLoop s "" false.

(** [parts.join(sep)] *)
Definition join (sep : string) (parts : list string) : string := String.concat sep parts.

(** [s.slice(n)] for [0 <= n] *)
Fixpoint drop (n : nat) (s : string) : string :=
  match n, s with
  | O, _ => s
  | S n', String _ s' => drop n' s'
  | S _, EmptyString => EmptyString
  end.

(** [s.slice(0, n)] for [0 <= n] *)
Fixpoint take (n : nat) (s : string) : string :=
  match n, s with
  | S n', String c s' => String c (take n' s')
  | _, _ => EmptyString
  end.

(** [s.slice(a, b)] for [0 <= a] and [0 <= b] *)
Definition sliceBetween (a b : nat) (s : string) : string := take (b - a) (drop a s).

(** [s.indexOf(c)] for a one-character [c]; [None] stands for -1. *)
Fixpoint indexOf (c : ascii) (s : string) : option nat :=
  match s with
  | EmptyString => None
  | String x s' =>
      if Ascii.eqb x c then Some O
      else
        match indexOf c s' with
        | Some i => Some (S i)
        | None => None
        end
  end.

(** [Buffer.byteLength(s, 'utf8')] on the code units of the range: one below
    U+0080 takes one byte, the others two.  (Outside the range a code unit
    takes up to three bytes.) *)
Fixpoint utf8Length (s : string) : nat :=
  match s with
  | String c s' => ((if nat_of_ascii c <? 128 then 1 else 2) + utf8Length s')%nat
  | EmptyString => O
  end.

End Js.

(* ------------------------------------------------------------------------- *)
(** ** types.ts *)

Inductive Role := system | user | assistant.

Definition roleName (r : Role) : string :=
  match r with
  | system => "system"
  | user => "user"
  | assistant => "assistant"
  end.

Record ChatMessage := mkMessage { role : Role; content : string }.

(** [{ role, content }] *)
Definition msg (r : Role) (text : string) : ChatMessage := mkMessage r text.

Module File.
Record Suggestion := mk { path : string; content : string }.
End File.

(* ------------------------------------------------------------------------- *)
(** ** The [path] module and [process.platform] of the host runtime *)

Module Path.

(** What utils.ts uses of the host: [path.sep], [path.normalize],
    [path.isAbsolute] and [process.platform].  The module belongs to the
    Node.js runtime, not to the repository; [posix] and [win32] below follow
    the runtime's algorithm for its two path conventions. *)
Record Host := mkHost {
  sep : string;
  normalize : string -> string;
  isAbsolute : string -> bool;
  platform : string
}.

Definition isPosixPathSeparator (c : ascii) : bool := Ascii.eqb c "/".
Definition isPathSeparator (c : ascii) : bool := Ascii.eqb c "/" || Ascii.eqb c "\".

Definition isWindowsDeviceRoot (c : ascii) : bool :=
  let n := nat_of_ascii c in
  ((65 <=? n) && (n <=? 90) || (97 <=? n) && (n <=? 122))%nat.

(** The segments of [s] between separators; [cur] is the segment being read. *)
Fixpoint segments (isSep : ascii -> bool) (s : string) (cur : string) : list string :=
  match s with
  | EmptyString => [cur]
  | String c s' =>
      if isSep c then cur :: segments isSep s' "" else segments isSep s' (cur ++ Js.chr c)
  end.

(** One step of the runtime's [normalizeString]: an empty segment and [.] are
    dropped, [..] removes the segment before it (or stays, above the root of a
    relative path), any other segment is kept. *)
Definition pushSegment (allowAboveRoot : bool) (res : list string) (seg : string)
  : list string :=
  if Js.isEmpty seg || (seg =? ".")%string then res
  else if (seg =? "..")%string then
    match List.rev res with
    | [] => if allowAboveRoot then [".."] else []
    | lastSeg :: before =>
        if (lastSeg =? "..")%string
        then (if allowAboveRoot then res ++ [".."] else res)
        else List.rev before
    end
  else res ++ [seg].

Definition normalizeString (p : string) (allowAboveRoot : bool) (separator : string)
  (isSep : ascii -> bool) : string :=
  String.concat separator (fold_left (pushSegment allowAboveRoot) (segments isSep p "") []).

Definition endsWithSeparator (isSep : ascii -> bool) (p : string) : bool :=
  match Js.lastChar p with
  | Some c => isSep c
  | None => false
  end.

(** [path.posix.normalize] *)
Definition posixNormalize (p : string) : string :=
  if Js.isEmpty p then "."
  else
    let isAbs := Js.startsWith p "/" in
    let trailingSeparator := endsWithSeparator isPosixPathSeparator p in
    let r := normalizeString p (negb isAbs) "/" isPosixPathSeparator in
    if Js.isEmpty r then (if isAbs then "/" else if trailingSeparator then "./" else ".")
    else
      let r' := if trailingSeparator then r ++ "/" else r in
      if isAbs then "/" ++ r' else r'.

(** [path.posix.isAbsolute] *)
Definition posixIsAbsolute (p : string) : bool := Js.startsWith p "/".

(** A normalized tail that begins like a drive: a letter and a colon. *)
Definition looksLikeDrive (tail : string) : bool :=
  match tail with
  | String c0 (String c1 _) => isWindowsDeviceRoot c0 && Ascii.eqb c1 ":"
  | _ => false
  end.

(** Some colon of [p] is its last character or stands before a separator. *)
Fixpoint colonAtBoundary (p : string) : bool :=
  match p with
  | EmptyString => false
  | String c rest =>
      Ascii.eqb c ":"
        && match rest with
           | EmptyString => true
           | String d _ => isPathSeparator d
           end
      || colonAtBoundary rest
  end.

(** The last step of [path.win32.normalize]: the tail after the root is
    normalized and put back behind the device and the root separator.  A
    relative path without a device whose tail could be read as a path on a
    drive is returned behind [.\]. *)
Definition win32Finish (p : string) (device : option string) (isAbs : bool)
  (afterRoot : string) : string :=
  let tail0 :=
    if Js.isEmpty afterRoot then ""
    else normalizeString afterRoot (negb isAbs) "\" isPathSeparator in
  let tail1 := if Js.isEmpty tail0 && negb isAbs then "." else tail0 in
  let tail :=
    if Js.truthy tail1 && endsWithSeparator isPathSeparator p then tail1 ++ "\" else tail1 in
  match device with
  | None =>
      if isAbs then "\" ++ tail
      else if Js.includes p ":" && (looksLikeDrive tail || colonAtBoundary p)
      then ".\" ++ tail
      else tail
  | Some d => if isAbs then d ++ "\" ++ tail else d ++ tail
  end.

(** [path.win32.normalize]: a root is a leading separator, a UNC prefix
    [\\server\share] or a drive letter with a colon. *)
Definition win32Normalize (p : string) : string :=
  match p with
  | EmptyString => "."
  | String c EmptyString => if isPosixPathSeparator c then "\" else p
  | String c0 (String c1 rest as afterFirst) =>
      if isPathSeparator c0 then
        if isPathSeparator c1 then
          let (server, r1) := Js.span (fun c => negb (isPathSeparator c)) rest in
          if Js.truthy r1 && Js.truthy server then
            let (_, r2) := Js.span isPathSeparator r1 in
            if Js.truthy r2 then
              let (share, r3) := Js.span (fun c => negb (isPathSeparator c)) r2 in
              if Js.isEmpty r3 then "\\" ++ server ++ "\" ++ share ++ "\"
              else win32Finish p (Some ("\\" ++ server ++ "\" ++ share)) true r3
            else win32Finish p None true p
          else win32Finish p None true p
        else win32Finish p None true afterFirst
      else if isWindowsDeviceRoot c0 && Ascii.eqb c1 ":" then
        let device := String c0 ":" in
        match rest with
        | String c2 rest' =>
            if isPathSeparator c2 then win32Finish p (Some device) true rest'
            else win32Finish p (Some device) false rest
        | EmptyString => win32Finish p (Some device) false rest
        end
      else win32Finish p None false p
  end.

(** [path.win32.isAbsolute] *)
Definition win32IsAbsolute (p : string) : bool :=
  match p with
  | EmptyString => false
  | String c0 rest =>
      isPathSeparator c0 ||
      match rest with
      | String c1 (String c2 _) =>
          isWindowsDeviceRoot c0 && Ascii.eqb c1 ":" && isPathSeparator c2
      | _ => false
      end
  end.

(** The two hosts the extension runs on. *)
Definition posix : Host := mkHost "/" posixNormalize posixIsAbsolute "linux".
Definition win32 : Host := mkHost "\" win32Normalize win32IsAbsolute "win32".

End Path.

(* ------------------------------------------------------------------------- *)
(** ** utils.ts *)

Module Utils.

(** The character class of the Windows branch of the validation: [<], [>],
    [:], the double quote, [|], [?] and [*]. *)
Definition isSuspiciousChar (c : ascii) : bool :=
  Ascii.eqb c "<" || Ascii.eqb c ">" || Ascii.eqb c ":" || Ascii.eqb c Js.dquote
  || Ascii.eqb c "|" || Ascii.eqb c "?" || Ascii.eqb c "*".

(** [validateRelativePath(relPath)]: [inr tt] when the function returns, [inl e]
    when it throws [e]. *)
Definition validateRelativePath (h : Path.Host) (relPath : string) : Js.Error + unit :=
  if negb (Js.truthy relPath) || (String.length (Js.trim relPath) =? 0)%nat then
    inl (Js.newError "Path cannot be empty")
  else
    let normalized := Path.normalize h relPath in
    if Path.isAbsolute h normalized then
      inl (Js.newError "Absolute paths are not allowed")
    else if Js.includes normalized ".." then
      inl (Js.newError "Path traversal (..) is not allowed")
    else if Js.startsWith normalized (Path.sep h) || Js.startsWith normalized "/" then
      inl (Js.newError "Path cannot start with a separator")
    else if (Path.platform h =? "win32")%string && Js.anyChar isSuspiciousChar relPath then
      inl (Js.newError "Path contains invalid characters")
    else if Js.includes relPath (Js.chr Js.nul) then
      inl (Js.newError "Path contains null bytes")
    else inr tt.

(** The call throws. *)
Definition throws {A : Type} (r : Js.Error + A) : Prop := exists e, r = inl e.

Section History.

(** [T extends { role: string }] *)
Context {T : Type} (roleOf : T -> string).

Definition isSystem (m : T) : bool := (roleOf m =? "system")%string.
Definition notSystem (m : T) : bool := negb (isSystem m).

(** [trimMessageHistory(messages, maxMessages)] *)
Definition trimMessageHistory (messages : list T) (maxMessages : Z) : list T :=
  if Z.of_nat (List.length messages) <=? maxMessages then messages
  else
    let systemMessages := filter isSystem messages in
    let otherMessages := filter notSystem messages in
    let recentMessages :=
      Js.slice otherMessages (- maxMessages + Z.of_nat (List.length systemMessages)) in
    systemMessages ++ recentMessages.

(** The last [n] elements of a list (all of it when it is shorter). *)
Definition lastn {A : Type} (n : nat) (l : list A) : list A :=
  skipn (List.length l - n) l.

(** The trimming contract in the words of the design document: a conversation
    within the bound is returned unchanged; otherwise the system entries are
    kept and, of the others, only the most recent [maxMessages - systemCount]. *)
Definition trimContract (messages : list T) (maxMessages : Z) : list T :=
  if Z.of_nat (List.length messages) <=? maxMessages then messages
  else
    let systemCount := Z.of_nat (List.length (filter isSystem messages)) in
    filter isSystem messages
      ++ lastn (Z.to_nat (maxMessages - systemCount)) (filter notSystem messages).

End History.

(** The conversation's instance: messages are [ChatMessage]s. *)
Definition chatRole (m : ChatMessage) : string := roleName (role m).

(** *** validateUrl, validateFileContent, escapeHtml *)

(** [validateUrl(url)]; [parseProtocol] stands for [new URL(url).protocol]
    and is [None] when the constructor throws. *)
Definition validateUrl (parseProtocol : string -> option string) (url : string) : bool :=
  if Js.blank url then false
  else
    match parseProtocol url with
    | Some protocol => (protocol =? "http:")%string || (protocol =? "https:")%string
    | None => false
    end.

(** [validateFileContent(content, maxSize)]; [formatBytes] renders a size for
    the message. *)
Definition validateFileContent (formatBytes : Z -> string) (content : string) (maxSize : Z)
  : Js.Error + unit :=
  let byteSize := Z.of_nat (Js.utf8Length content) in
  if maxSize <? byteSize then
    inl (Js.newError
           ("Content size (" ++ formatBytes byteSize
              ++ ") exceeds maximum allowed size (" ++ formatBytes maxSize ++ ")"))
  else inr tt.

(** The replacement of one character by [escapeHtml]. *)
Definition escapeChar (m : ascii) : string :=
  if Ascii.eqb m "&" then "&amp;"
  else if Ascii.eqb m "<" then "&lt;"
  else if Ascii.eqb m ">" then "&gt;"
  else if Ascii.eqb m Js.dquote then "&quot;"
  else if Ascii.eqb m "'" then "&#039;"
  else Js.chr m.

(** [escapeHtml(text)]: every [&], [<], [>], double quote and apostrophe is
    replaced by its entity. *)
Fixpoint escapeHtml (text : string) : string :=
  match text with
  | String m rest => escapeChar m ++ escapeHtml rest
  | EmptyString => EmptyString
  end.

(** *** readWorkspaceFile *)

(** A workspace folder. *)
Record Folder := mkFolder { folderName : string; folderUri : string }.

(** The files of the workspace by URI, with their text. *)
Definition Files : Type := string -> option string.

Section Workspace.

(** The host, [vscode.Uri.joinPath], the error with which the file system
    rejects the read of a missing entry, the folder that
    [getActiveWorkspaceFolder] returns and the files. *)
Context (host : Path.Host) (joinPath : string -> string -> string).
Context (readError : string -> Js.Error).

Definition fsReadFile (files : Files) (uri : string) : Js.Error + string :=
  match files uri with
  | Some text => inr text
  | None => inl (readError uri)
  end.

(** [readWorkspaceFile(relPath)] *)
Definition readWorkspaceFile (workspace : option Folder) (files : Files) (relPath : string)
  : Js.Error + string :=
  match validateRelativePath host relPath with
  | inl error => inl error
  | inr _ =>
      match workspace with
      | None => inl (Js.newError "No workspace folder open")
      | Some folder =>
          let fileUri := joinPath (folderUri folder) relPath in
          match fsReadFile files fileUri with
          | inr text => inr text
          | inl error =>
              inl (Js.newError
                     ("Failed to read file " ++ Js.chr Js.dquote ++ relPath
                        ++ Js.chr Js.dquote ++ ": " ++ Js.message error))
          end
      end
  end.

End Workspace.

End Utils.

(* ------------------------------------------------------------------------- *)
(** ** llm.js: the two endpoint calls *)

Module Llm.

(** The parts of the parsed response bodies that the calls read.  A field that
    is absent (or null) in the body is [None]. *)
Record ResponseMessage := mkResponseMessage { messageContent : option string }.
Record Choice := mkChoice { choiceMessage : option ResponseMessage }.
Record ResponseOpenAI := mkResponseOpenAI { choices : option (list Choice) }.
Record ResponseOllama := mkResponseOllama { ollamaMessage : option ResponseMessage }.

(** A resolved [fetch]: the [Response] with the text of its body and with what
    [response.json()] gives, the parsed body or the error it rejects with. *)
Record Response (J : Type) := mkResponse {
  ok : bool;
  status : N;
  statusText : string;
  text : string;
  json : Js.Error + J
}.
Arguments mkResponse {J}.
Arguments ok {J}.
Arguments status {J}.
Arguments statusText {J}.
Arguments text {J}.
Arguments json {J}.

(** What the server does with one request: it never answers, or it settles
    after some milliseconds, with a response or with a network failure. *)
Inductive Transport (J : Type) :=
| NeverResponds
| FailsAfter (ms : Z) (e : Js.Error)
| RespondsAfter (ms : Z) (r : Response J).
Arguments NeverResponds {J}.
Arguments FailsAfter {J}.
Arguments RespondsAfter {J}.

(** The rejection of a [fetch] whose signal was aborted. *)
Definition abortError : Js.Error := Js.mkError "AbortError" "This operation was aborted".

(** [fetch(url, { signal })] raced against [setTimeout(abort, timeout)]: the
    promise settles as the server does when that happens before the timer
    fires, and rejects with the abort otherwise.  The timer runs for
    [Js.timerDelay timeout] milliseconds. *)
Definition fetchWithTimeout {J : Type} (server : Transport J) (timeout : Z)
  : Js.Error + Response J :=
  match server with
  | NeverResponds => inl abortError
  | FailsAfter ms e => if ms <? Js.timerDelay timeout then inl e else inl abortError
  | RespondsAfter ms r => if ms <? Js.timerDelay timeout then inr r else inl abortError
  end.

(** The [catch] clause shared by both calls. *)
Definition onCatch (timeout : Z) (error : Js.Error) : Js.Error :=
  if (Js.name error =? "AbortError")%string then
    Js.newError ("Request timed out after " ++ Js.thousandthsText timeout ++ " seconds")
  else error.

Definition apiErrorMessage {J : Type} (label : string) (r : Response J) : string :=
  label ++ " API error (" ++ Js.decimal (status r) ++ "): "
    ++ (if Js.truthy (text r) then text r else statusText r).

(** [json.choices[0]?.message?.content] *)
Definition firstChoiceContent (cs : list Choice) : option string :=
  match cs with
  | [] => None
  | c :: _ =>
      match choiceMessage c with
      | Some m => messageContent m
      | None => None
      end
  end.

Definition readOpenAI (r : Response ResponseOpenAI) : Js.Error + string :=
  if negb (ok r) then inl (Js.newError (apiErrorMessage "LLM" r))
  else
    match json r with
    | inl e => inl e
    | inr body =>
        match choices body with
        | None => inl (Js.newError "No response choices returned from LLM")
        | Some [] => inl (Js.newError "No response choices returned from LLM")
        | Some cs =>
            match firstChoiceContent cs with
            | None => inl (Js.newError "Empty response from LLM")
            | Some c =>
                if negb (Js.truthy c) then inl (Js.newError "Empty response from LLM")
                else inr (Js.trim c)
            end
        end
    end.

Definition readOllama (r : Response ResponseOllama) : Js.Error + string :=
  if negb (ok r) then inl (Js.newError (apiErrorMessage "Ollama" r))
  else
    match json r with
    | inl e => inl e
    | inr body =>
        match ollamaMessage body with
        | None => inl (Js.newError "Empty response from Ollama")
        | Some m =>
            match messageContent m with
            | None => inl (Js.newError "Empty response from Ollama")
            | Some c =>
                if negb (Js.truthy c) then inl (Js.newError "Empty response from Ollama")
                else inr (Js.trim c)
            end
        end
    end.

(** The request bodies; [Num] is the type of the numbers that are only passed
    through (temperature, token limit). *)
Inductive RequestBody (Num : Type) :=
| OpenAIBody (model : string) (messages : list ChatMessage)
    (temperature : Num) (max_tokens : Num) (stream : bool)
| OllamaBody (model : string) (messages : list ChatMessage) (stream : bool)
    (options_temperature : Num) (options_num_predict : Num).
Arguments OpenAIBody {Num}.
Arguments OllamaBody {Num}.

(** The second argument of [fetch]; [body] stands for its JSON text. *)
Record Init (Num : Type) := mkInit {
  method : string;
  headers : list (string * string);
  body : RequestBody Num
}.
Arguments mkInit {Num}.

(** The network as the calls see it: what the server at a URL does with a
    request. *)
Definition Fetch (Num J : Type) : Type := string -> Init Num -> Transport J.

Section Calls.

Context {Num : Type}.

(** The request of [callOpenAIEndpoint]: [{ model, messages, temperature,
    max_tokens, stream: false }], posted with the given headers. *)
Definition openAIInit (model : string) (messages : list ChatMessage)
  (headers : list (string * string)) (temperature maxTokens : Num) : Init Num :=
  mkInit "POST" headers (OpenAIBody model messages temperature maxTokens false).

(** The request of [callOllamaEndpoint]: [{ model, messages, stream: false,
    options: { temperature, num_predict } }]. *)
Definition ollamaInit (model : string) (messages : list ChatMessage)
  (headers : list (string * string)) (temperature maxTokens : Num) : Init Num :=
  mkInit "POST" headers (OllamaBody model messages false temperature maxTokens).

(** [callOpenAIEndpoint(url, model, messages, headers, temperature, maxTokens,
    timeout)] *)
Definition callOpenAIEndpoint (fetch : Fetch Num ResponseOpenAI)
  (url model : string) (messages : list ChatMessage) (headers : list (string * string))
  (temperature maxTokens : Num) (timeout : Z) : Js.Error + string :=
  match
    fetchWithTimeout (fetch url (openAIInit model messages headers temperature maxTokens))
      timeout
  with
  | inl error => inl (onCatch timeout error)
  | inr response =>
      match readOpenAI response with
      | inl error => inl (onCatch timeout error)
      | inr reply => inr reply
      end
  end.

(** [callOllamaEndpoint(url, model, messages, headers, temperature, maxTokens,
    timeout)] *)
Definition callOllamaEndpoint (fetch : Fetch Num ResponseOllama)
  (url model : string) (messages : list ChatMessage) (headers : list (string * string))
  (temperature maxTokens : Num) (timeout : Z) : Js.Error + string :=
  match
    fetchWithTimeout (fetch url (ollamaInit model messages headers temperature maxTokens))
      timeout
  with
  | inl error => inl (onCatch timeout error)
  | inr response =>
      match readOllama response with
      | inl error => inl (onCatch timeout error)
      | inr reply => inr reply
      end
  end.

End Calls.

(** *** The error kinds of the design document

    The code throws plain [Error]s; a kind is recognised by the message. *)

Definition EmptyResponseError (e : Js.Error) : Prop :=
  e = Js.newError "No response choices returned from LLM"
  \/ e = Js.newError "Empty response from LLM"
  \/ e = Js.newError "Empty response from Ollama".

(** A success body carries no usable content: on the OpenAI shape the list of
    choices is missing or empty, or the content of its first entry is missing
    or empty; on the Ollama shape [message.content] is missing or empty. *)
Definition noUsableContent (c : option string) : Prop := c = None \/ c = Some "".

Definition noContentOpenAI (b : ResponseOpenAI) : Prop :=
  match choices b with
  | None => True
  | Some cs => cs = [] \/ noUsableContent (firstChoiceContent cs)
  end.

Definition noContentOllama (b : ResponseOllama) : Prop :=
  match ollamaMessage b with
  | None => True
  | Some m => noUsableContent (messageContent m)
  end.

(** The server does not answer before the timer of [timeout] milliseconds. *)
Definition noResponseWithin {J : Type} (server : Transport J) (timeout : Z) : Prop :=
  match server with
  | NeverResponds => True
  | FailsAfter ms _ => timeout <= ms
  | RespondsAfter ms _ => timeout <= ms
  end.

(** A text that is a whole number: one or more decimal digits. *)
Definition isDigit (c : ascii) : bool :=
  let n := nat_of_ascii c in ((48 <=? n) && (n <=? 57))%nat.

Fixpoint allDigits (s : string) : bool :=
  match s with
  | String c s' => isDigit c && allDigits s'
  | EmptyString => true
  end.

Definition wholeNumberText (s : string) : bool := Js.truthy s && allDigits s.

(** A timeout error whose message gives the bound as a whole number of
    seconds. *)
Definition TimeoutErrorInWholeSeconds (e : Js.Error) : Prop :=
  exists secs, wholeNumberText secs = true
    /\ e = Js.newError ("Request timed out after " ++ secs ++ " seconds").

(** *** The stored token *)

(** The secret storage of the extension context, by key. *)
Definition Secrets : Type := string -> option string.

Definition SECRET_KEY : string := "localLLM.apiToken".

(** [secrets.store(key, value)] and [secrets.delete(key)] *)
Definition secretsStore (key value : string) (secrets : Secrets) : Secrets :=
  fun k => if (k =? key)%string then Some value else secrets k.

Definition secretsDelete (key : string) (secrets : Secrets) : Secrets :=
  fun k => if (k =? key)%string then None else secrets k.

(** [getSecretToken(context)] *)
Definition getSecretToken (secrets : Secrets) : option string := secrets SECRET_KEY.

(** [setSecretToken(context, value)] *)
Definition setSecretToken (value : string) (secrets : Secrets) : Secrets :=
  if negb (Js.blank value) then secretsStore SECRET_KEY value secrets
  else secretsDelete SECRET_KEY secrets.

(** *** callLLM, with the compatibility mode and the custom endpoint *)

(** The argument of [callLLM]; an optional field that is not given is
    [None]. *)
Record CallOptions (Num : Type) := mkCallOptions {
  apiUrl : string;
  apiCompat : string;
  model : string;
  token : option string;
  messages : list ChatMessage;
  customEndpoint : option string;
  temperature : option Num;
  maxTokens : option Num;
  timeout : option Z
}.
Arguments mkCallOptions {Num}.
Arguments apiUrl {Num}.
Arguments apiCompat {Num}.
Arguments model {Num}.
Arguments token {Num}.
Arguments messages {Num}.
Arguments customEndpoint {Num}.
Arguments temperature {Num}.
Arguments maxTokens {Num}.
Arguments timeout {Num}.

(** A string that is given and not blank: [s && s.trim().length > 0]. *)
Definition present (s : option string) : bool :=
  match s with
  | Some v => negb (Js.blank v)
  | None => false
  end.

(** The content that a response carries for the reply: the body has to parse,
    and the content is read from the first choice, or from the message. *)
Definition contentOpenAI (r : Response ResponseOpenAI) : option string :=
  match json r with
  | inr b =>
      match choices b with
      | Some cs => firstChoiceContent cs
      | None => None
      end
  | inl _ => None
  end.

Definition contentOllama (r : Response ResponseOllama) : option string :=
  match json r with
  | inr b =>
      match ollamaMessage b with
      | Some m => messageContent m
      | None => None
      end
  | inl _ => None
  end.

(** What [response.json()] rejects with: a [SyntaxError] for a body that is
    not JSON, a [TypeError] for a body that cannot be read. *)
Definition parserError (e : Js.Error) : Prop :=
  Js.name e = "SyntaxError" \/ Js.name e = "TypeError".

(** A content that can be used as a reply: it is there and, since the reply
    is returned trimmed, it is not blank. *)
Definition usableContent (c : option string) : bool := present c.

Definition orEmpty (s : option string) : string :=
  match s with
  | Some v => v
  | None => ""
  end.

(** The headers that [callLLM] builds. *)
Definition requestHeaders (token : option string) : list (string * string) :=
  ("Content-Type", "application/json")
    :: (if present token then [("Authorization", "Bearer " ++ orEmpty token)] else []).

(** [url.replace(/\/$/, '')]: one slash at the very end is removed. *)
Fixpoint stripTrailingSlash (url : string) : string :=
  match url with
  | EmptyString => EmptyString
  | String c EmptyString => if Ascii.eqb c "/" then EmptyString else url
  | String c rest => String c (stripTrailingSlash rest)
  end.

Section CallLLM.

Context {Num : Type}.

(** [new URL(url).protocol], the defaults [0.7] and [2048] of the optional
    numbers, and the network. *)
Variable parseProtocol : string -> option string.
Variables defaultTemperature defaultMaxTokens : Num.
Variable fetchOpenAI : Fetch Num ResponseOpenAI.
Variable fetchOllama : Fetch Num ResponseOllama.

Definition orDefault {A : Type} (given : option A) (default : A) : A :=
  match given with
  | Some v => v
  | None => default
  end.

(** [callLLM(options)] *)
Definition callLLM (options : CallOptions Num) : Js.Error + string :=
  let temperature' := orDefault (temperature options) defaultTemperature in
  let maxTokens' := orDefault (maxTokens options) defaultMaxTokens in
  let timeout' := orDefault (timeout options) 120000 in
  if Js.blank (model options) then
    inl (Js.newError "Model name is not configured. Please set it in settings.")
  else
    let headers := requestHeaders (token options) in
    if present (customEndpoint options) then
      let custom := orEmpty (customEndpoint options) in
      if negb (Utils.validateUrl parseProtocol custom) then
        inl (Js.newError ("Invalid custom endpoint URL: " ++ custom))
      else
        callOpenAIEndpoint fetchOpenAI custom (model options) (messages options) headers
          temperature' maxTokens' timeout'
    else if Js.blank (apiUrl options) then
      inl (Js.newError "API URL is not configured. Please set it in settings.")
    else if negb (Utils.validateUrl parseProtocol (apiUrl options)) then
      inl (Js.newError ("Invalid API URL: " ++ apiUrl options))
    else if (apiCompat options =? "openai")%string then
      let url := stripTrailingSlash (apiUrl options) ++ "/v1/chat/completions" in
      callOpenAIEndpoint fetchOpenAI url (model options) (messages options) headers
        temperature' maxTokens' timeout'
    else
      let url := stripTrailingSlash (apiUrl options) ++ "/api/chat" in
      callOllamaEndpoint fetchOllama url (model options) (messages options) headers
        temperature' maxTokens' timeout'.

End CallLLM.

End Llm.

(* ------------------------------------------------------------------------- *)
(** ** A backtracking matcher for the regular expressions of the program *)

Module RegExp.

Inductive Quantifier := GreedyPlus | LazyStar.

(** A pattern is a sequence of atoms: literal text, or a quantified character
    class, which may be a capturing group. *)
Inductive Atom :=
| Literal (s : string)
| Repeat (q : Quantifier) (class : ascii -> bool) (capturing : bool).

(** A successful match: the captured groups in order ([match[1]], [match[2]],
    ...) and the input that follows the match (the text from [lastIndex]). *)
Record Match := mkMatch { groups : list string; rest : string }.

Fixpoint stripPrefix (p s : string) : option string :=
  match p, s with
  | EmptyString, _ => Some s
  | String a p', String b s' => if Ascii.eqb a b then stripPrefix p' s' else None
  | String _ _, EmptyString => None
  end.

Section Quantified.

Context {R : Type} (class : ascii -> bool).

(** [k taken s] continues the match after the quantified class has consumed
    [taken], with [s] left to read. *)
Variable k : string -> string -> option R.

(** Greedy: take one more character first, give it back when what follows
    fails. *)
Fixpoint greedyStar (taken s : string) : option R :=
  match s with
  | String c s' =>
      if class c then
        match greedyStar (taken ++ Js.chr c) s' with
        | Some r => Some r
        | None => k taken s
        end
      else k taken s
  | EmptyString => k taken s
  end.

Definition greedyPlus (s : string) : option R :=
  match s with
  | String c s' => if class c then greedyStar (Js.chr c) s' else None
  | EmptyString => None
  end.

(** Lazy: try what follows first, take one more character when it fails. *)
Fixpoint lazyStar (taken s : string) : option R :=
  match k taken s with
  | Some r => Some r
  | None =>
      match s with
      | String c s' => if class c then lazyStar (taken ++ Js.chr c) s' else None
      | EmptyString => None
      end
  end.

End Quantified.

(** Match the pattern at the start of [s]. *)
Fixpoint matchHere (re : list Atom) (captured : list string) (s : string) : option Match :=
  match re with
  | [] => Some (mkMatch captured s)
  | Literal l :: re' =>
      match stripPrefix l s with
      | Some s' => matchHere re' captured s'
      | None => None
      end
  | Repeat q class capturing :: re' =>
      let k := fun taken s' =>
        matchHere re' (if capturing then captured ++ [taken] else captured) s' in
      match q with
      | GreedyPlus => greedyPlus class k s
      | LazyStar => lazyStar class k "" s
      end
  end.

(** [re.exec(text)] for a global pattern, on the text from [lastIndex]: the
    leftmost position where the pattern matches. *)
Fixpoint exec (re : list Atom) (s : string) : option Match :=
  match matchHere re [] s with
  | Some m => Some m
  | None =>
      match s with
      | String _ s' => exec re s'
      | EmptyString => None
      end
  end.

End RegExp.

(* ------------------------------------------------------------------------- *)
(** ** chatPanel.ts *)

Module ChatPanel.

Import RegExp.

Definition anyChar (c : ascii) : bool := true.
Definition notQuote (c : ascii) : bool := negb (Ascii.eqb c Js.dquote).
Definition isLineBreak (c : ascii) : bool := Ascii.eqb c Js.cr || Ascii.eqb c Js.lf.

(** The pattern of [extractAllFileFences]: three backticks and [file], [\s+],
    [path=] and a quoted group of non-quote characters, [[\r\n]+], a lazy
    group of any characters, three backticks. *)
Definition fenceRegex : list Atom :=
  [ Literal "```file";
    Repeat GreedyPlus Js.isWhiteSpace false;
    Literal ("path=" ++ Js.chr Js.dquote);
    Repeat GreedyPlus notQuote true;
    Literal (Js.chr Js.dquote);
    Repeat GreedyPlus isLineBreak false;
    Repeat LazyStar anyChar true;
    Literal "```" ].

(** The [while] loop of [extractAllFileFences] on the text from [lastIndex];
    [fuel] bounds the number of iterations. *)
Fixpoint fenceLoop (fuel : nat) (text : string) : list File.Suggestion :=
  match fuel with
  | O => []
  | S fuel' =>
      match exec fenceRegex text with
      | None => []
      | Some m =>
          match nth_error (groups m) 0, nth_error (groups m) 1 with
          | Some path, Some content =>
              if Js.truthy path
              then File.mk (Js.trim path) content :: fenceLoop fuel' (rest m)
              else fenceLoop fuel' (rest m)
          | _, _ => fenceLoop fuel' (rest m)
          end
      end
  end.

(** [extractAllFileFences(text)]: every match consumes at least one
    character, so the loop ends within [length text + 1] iterations. *)
Definition extractAllFileFences (text : string) : list File.Suggestion :=
  fenceLoop (S (String.length text)) text.

(** A fenced block as the system prompt asks for it. *)
Definition fence (path content : string) : string :=
  "```file path=" ++ Js.chr Js.dquote ++ path ++ Js.chr Js.dquote ++ Js.chr Js.lf
    ++ content ++ "```".

(** The content [hello], a line feed, [world]. *)
Definition helloWorld : string := "hello" ++ Js.chr Js.lf ++ "world".

Definition noBacktick (s : string) : bool :=
  negb (Js.anyChar (fun c => Ascii.eqb c Js.backtick) s).

(** Messages posted to the webview. *)
Inductive WebviewMessage :=
| ChatAppend (r : Role) (content : string)
| ChatError (message : string)
| ChatClear
| FileSuggest (file : File.Suggestion).

(** The settings read by [getLLMConfig] that [onUserMessage] uses. *)
Record LLMConfig (Num : Type) := mkConfig {
  apiUrl : string;
  token : string;
  model : string;
  temperature : Num;
  maxTokens : Num;
  maxHistoryMessages : Z;
  requestTimeout : Z
}.
Arguments mkConfig {Num}.
Arguments apiUrl {Num}.
Arguments token {Num}.
Arguments model {Num}.
Arguments temperature {Num}.
Arguments maxTokens {Num}.
Arguments maxHistoryMessages {Num}.
Arguments requestTimeout {Num}.

(** The argument of [callLLM]. *)
Record LLMCallOptions (Num : Type) := mkOptions {
  optApiUrl : string;
  optModel : string;
  optToken : string;
  optMessages : list ChatMessage;
  optTemperature : Num;
  optMaxTokens : Num;
  optTimeout : Z
}.
Arguments mkOptions {Num}.

(** The panel: the conversation, what has been posted to the webview and the
    error notifications shown, oldest first. *)
Record Panel := mkPanel {
  messages : list ChatMessage;
  posted : list WebviewMessage;
  errorsShown : list string
}.

Definition post (m : WebviewMessage) (p : Panel) : Panel :=
  mkPanel (messages p) (posted p ++ [m]) (errorsShown p).

Definition showErrorMessage (msg : string) (p : Panel) : Panel :=
  mkPanel (messages p) (posted p) (errorsShown p ++ [msg]).

Definition push (m : ChatMessage) (p : Panel) : Panel :=
  mkPanel (messages p ++ [m]) (posted p) (errorsShown p).

Definition setMessages (ms : list ChatMessage) (p : Panel) : Panel :=
  mkPanel ms (posted p) (errorsShown p).

Section Handler.

Context {Num : Type}.

(** The settings in force, the model call and the slash-command handler. *)
Variable config : LLMConfig Num.
Variable callLLM : LLMCallOptions Num -> Js.Error + string.
Variable handleCommand : string -> Panel -> Panel.

(** [onUserMessage(text)] *)
Definition onUserMessage (text : string) (p : Panel) : Panel :=
  let trimmedText := Js.trim text in
  if negb (Js.truthy trimmedText) then p
  else if Js.startsWith trimmedText "/" then handleCommand trimmedText p
  else
    let p1 := push (mkMessage user trimmedText) p in
    let p2 :=
      setMessages
        (Utils.trimMessageHistory Utils.chatRole (messages p1) (maxHistoryMessages config)) p1 in
    match
      callLLM (mkOptions (apiUrl config) (model config) (token config) (messages p2)
                 (temperature config) (maxTokens config) (requestTimeout config))
    with
    | inr reply =>
        let p3 := push (mkMessage assistant reply) p2 in
        let p4 := post (ChatAppend assistant reply) p3 in
        fold_left (fun q file => post (FileSuggest file) q) (extractAllFileFences reply) p4
    | inl error =>
        let errorMsg := Js.message error in
        post (ChatError errorMsg) (showErrorMessage ("LLM Error: " ++ errorMsg) p2)
    end.

End Handler.

End ChatPanel.

(* ------------------------------------------------------------------------- *)
(** ** llm.ts as chatPanel.ts calls it: every provider speaks the
    OpenAI-compatible format *)

Module LlmOpenAIOnly.

Import ChatPanel.

Section CallLLM.

Context {Num : Type}.

Variable parseProtocol : string -> option string.
Variable fetch : Llm.Fetch Num Llm.ResponseOpenAI.

(** [callLLM(options)] *)
Definition callLLM (options : LLMCallOptions Num) : Js.Error + string :=
  if Js.blank (optModel _ options) then
    inl (Js.newError "Model name is not configured. Please set it in settings.")
  else if Js.blank (optApiUrl _ options) then
    inl (Js.newError "API URL is not configured. Please set it in settings.")
  else if negb (Utils.validateUrl parseProtocol (optApiUrl _ options)) then
    inl (Js.newError ("Invalid API URL: " ++ optApiUrl _ options))
  else
    Llm.callOpenAIEndpoint fetch (optApiUrl _ options) (optModel _ options)
      (optMessages _ options) (Llm.requestHeaders (Some (optToken _ options)))
      (optTemperature _ options) (optMaxTokens _ options) (optTimeout _ options).

End CallLLM.

End LlmOpenAIOnly.

(* ------------------------------------------------------------------------- *)
(** ** chatPanel.ts: the slash commands *)

Module Commands.

Import ChatPanel.

Inductive EntryType := FileEntry | DirectoryEntry.

(** An entry of [listWorkspaceFiles]. *)
Record Entry := mkEntry { entryName : string; entryPath : string; entryType : EntryType }.

(** The result of [getWorkspaceMetadata]. *)
Record Metadata := mkMetadata {
  workspaceName : string;
  workspacePath : string;
  hasGit : bool;
  hasPackageJson : bool
}.

(** The workspace functions of utils.ts as the commands call them:
    [readWorkspaceFile(path)], [listWorkspaceFiles(path, { recursive: false })],
    [findFilesInWorkspace(pattern, maxResults)] and [getWorkspaceMetadata()]. *)
Record Workspace := mkWorkspace {
  readFile : string -> Js.Error + string;
  listFiles : string -> Js.Error + list Entry;
  findFiles : string -> Z -> Js.Error + list string;
  metadata : Js.Error + Metadata
}.

Definition dq : string := Js.chr Js.dquote.
Definition nl : string := Js.chr Js.lf.

(** [s || fallback] *)
Definition orElse (s fallback : string) : string := if Js.truthy s then s else fallback.

Definition helpText : string :=
"Available Commands:

📄 /read <file-path>
   Read a file and add to conversation context
   Example: /read src/app.ts

📁 /list [directory]
   List files in a directory (default: root)
   Example: /list src

🔍 /search <pattern>
   Search for files matching a pattern
   Example: /search **/*.json

ℹ️  /workspace
   Show workspace information

❓ /help
   Show this help message".

(** What [/read] shows in the webview, and the user turn that it adds to the
    conversation. *)
Definition fileReport (filePath text : string) : string :=
  "File " ++ dq ++ filePath ++ dq ++ ":" ++ nl ++ nl ++ "```" ++ nl ++ text ++ nl ++ "```".

Definition fileTurn (filePath text : string) : string :=
  "I'm showing you the content of file " ++ dq ++ filePath ++ dq ++ ":" ++ nl ++ nl
    ++ "```" ++ nl ++ text ++ nl ++ "```".

Section Dispatch.

Variable workspace : Workspace.

(** [commandReadFile(args)] *)
Definition commandReadFile (args : list string) (p : Panel) : Js.Error + Panel :=
  match args with
  | [] =>
      inr (post (ChatAppend system
                   ("Usage: /read <file-path>" ++ nl ++ "Example: /read src/example.ts")) p)
  | _ =>
      let filePath := Js.join " " args in
      match readFile workspace filePath with
      | inl error => inl error
      | inr text =>
          let p1 := post (ChatAppend system (fileReport filePath text)) p in
          inr (push (msg user (fileTurn filePath text)) p1)
      end
  end.

Definition entryLine (e : Entry) : string :=
  (match entryType e with
   | DirectoryEntry => "📁"
   | FileEntry => "📄"
   end) ++ " " ++ entryName e ++ nl.

(** [commandListFiles(args)] *)
Definition commandListFiles (args : list string) (p : Panel) : Js.Error + Panel :=
  let dirPath := orElse (Js.join " " args) "" in
  match listFiles workspace dirPath with
  | inl error => inl error
  | inr files =>
      match files with
      | [] =>
          inr (post (ChatAppend system
                       ("No files found in " ++ dq ++ orElse dirPath "workspace root" ++ dq)) p)
      | _ =>
          let header :=
            "Files in " ++ dq ++ orElse dirPath "workspace root" ++ dq ++ " ("
              ++ Js.decimal (N.of_nat (List.length files)) ++ " items):" ++ nl ++ nl in
          let output := fold_left (fun out e => out ++ entryLine e) files header in
          inr (post (ChatAppend system output) p)
      end
  end.

(** [commandSearchFiles(args)] *)
Definition commandSearchFiles (args : list string) (p : Panel) : Js.Error + Panel :=
  match args with
  | [] =>
      inr (post (ChatAppend system
                   ("Usage: /search <pattern>" ++ nl ++ "Example: /search **/*.ts")) p)
  | _ =>
      let pattern := Js.join " " args in
      match findFiles workspace pattern 50 with
      | inl error => inl error
      | inr files =>
          match files with
          | [] =>
              inr (post (ChatAppend system
                           ("No files found matching " ++ dq ++ pattern ++ dq)) p)
          | _ =>
              let header :=
                "Files matching " ++ dq ++ pattern ++ dq ++ " ("
                  ++ Js.decimal (N.of_nat (List.length files)) ++ " results):" ++ nl ++ nl in
              let listed := fold_left (fun out f => out ++ "📄 " ++ f ++ nl) files header in
              let output :=
                if (List.length files =? 50)%nat
                then listed ++ nl ++ "(Limited to first 50 results)"
                else listed in
              inr (post (ChatAppend system output) p)
          end
      end
  end.

(** [commandWorkspaceInfo()] *)
Definition commandWorkspaceInfo (p : Panel) : Js.Error + Panel :=
  match metadata workspace with
  | inl error => inl error
  | inr m =>
      let output :=
        "Workspace Information:" ++ nl ++ nl
          ++ "📁 Name: " ++ workspaceName m ++ nl
          ++ "📂 Path: " ++ workspacePath m ++ nl
          ++ (if hasGit m then "✅" else "❌") ++ " Git Repository" ++ nl
          ++ (if hasPackageJson m then "✅" else "❌") ++ " Node.js Project" ++ nl in
      inr (post (ChatAppend system output) p)
  end.

(** [commandHelp()] *)
Definition commandHelp (p : Panel) : Panel := post (ChatAppend system helpText) p.

(** The [switch] of [handleCommand] on the lower-cased first word. *)
Definition runCommand (cmd : string) (args : list string) (p : Panel) : Js.Error + Panel :=
  if (cmd =? "read")%string then commandReadFile args p
  else if (cmd =? "list")%string then commandListFiles args p
  else if (cmd =? "search")%string then commandSearchFiles args p
  else if (cmd =? "workspace")%string || (cmd =? "info")%string then commandWorkspaceInfo p
  else if (cmd =? "help")%string then inr (commandHelp p)
  else
    inr (post (ChatAppend system
                 ("Unknown command: /" ++ cmd ++ nl ++ "Type /help for available commands.")) p).

(** [handleCommand(command)]: an error of a command is caught and posted. *)
Definition handleCommand (command : string) (p : Panel) : Panel :=
  let parts := Js.splitWhiteSpace (Js.drop 1 command) in
  let cmd := Js.toLowerCase (hd "" parts) in
  let args := tl parts in
  match runCommand cmd args p with
  | inr p' => p'
  | inl error => post (ChatError (Js.message error)) p
  end.

End Dispatch.

End Commands.

(* ------------------------------------------------------------------------- *)
(** ** chatPanel.ts: the panel with the editor around it *)

Module Session.

Import ChatPanel.

(** What the panel reaches of the editor: the files of the workspace by URI,
    the documents opened, and the information messages, warnings and modal
    questions shown, oldest first. *)
Record Desk := mkDesk {
  files : Utils.Files;
  opened : list string;
  information : list string;
  warnings : list string;
  questions : list string
}.

Record State := mkState { panel : Panel; desk : Desk }.

(** What is given from outside while one message is handled: the settings,
    the model call, the host and the workspace, the answers of the user and
    the failures of the file system. *)
Record Env (Num : Type) := mkEnv {
  config : LLMConfig Num;
  systemPrompt : string;
  maxFileSize : Z;
  callLLM : LLMCallOptions Num -> Js.Error + string;
  host : Path.Host;
  joinPath : string -> string -> string;
  readError : string -> Js.Error;
  workspaceFolder : option Utils.Folder;
  listFiles : string -> Js.Error + list Commands.Entry;
  findFiles : string -> Z -> Js.Error + list string;
  metadata : Js.Error + Commands.Metadata;
  formatBytes : Z -> string;
  answer : string -> option string;
  writeError : string -> option Js.Error;
  openError : string -> option Js.Error
}.
Arguments config {Num}.
Arguments systemPrompt {Num}.
Arguments maxFileSize {Num}.
Arguments callLLM {Num}.
Arguments host {Num}.
Arguments joinPath {Num}.
Arguments readError {Num}.
Arguments workspaceFolder {Num}.
Arguments listFiles {Num}.
Arguments findFiles {Num}.
Arguments metadata {Num}.
Arguments formatBytes {Num}.
Arguments answer {Num}.
Arguments writeError {Num}.
Arguments openError {Num}.

Definition onPanel (f : Panel -> Panel) (s : State) : State := mkState (f (panel s)) (desk s).

Definition showInformationMessage (text : string) (s : State) : State :=
  mkState (panel s)
    (mkDesk (files (desk s)) (opened (desk s)) (information (desk s) ++ [text])
       (warnings (desk s)) (questions (desk s))).

Definition showWarningMessage (text : string) (s : State) : State :=
  mkState (panel s)
    (mkDesk (files (desk s)) (opened (desk s)) (information (desk s))
       (warnings (desk s) ++ [text]) (questions (desk s))).

Definition askModal (text : string) (s : State) : State :=
  mkState (panel s)
    (mkDesk (files (desk s)) (opened (desk s)) (information (desk s))
       (warnings (desk s)) (questions (desk s) ++ [text])).

(** [vscode.workspace.fs.writeFile(uri, Buffer.from(content, 'utf8'))] *)
Definition writeFile (uri content : string) (s : State) : State :=
  mkState (panel s)
    (mkDesk (fun u => if (u =? uri)%string then Some content else files (desk s) u)
       (opened (desk s)) (information (desk s)) (warnings (desk s)) (questions (desk s))).

(** [openTextDocument] and [showTextDocument] *)
Definition showTextDocument (uri : string) (s : State) : State :=
  mkState (panel s)
    (mkDesk (files (desk s)) (opened (desk s) ++ [uri]) (information (desk s))
       (warnings (desk s)) (questions (desk s))).

Section Methods.

Context {Num : Type}.
Variable env : Env Num.

(** The workspace functions over the files of the desk. *)
Definition workspaceOf (d : Desk) : Commands.Workspace :=
  Commands.mkWorkspace
    (Utils.readWorkspaceFile (host env) (joinPath env) (readError env)
       (workspaceFolder env) (files d))
    (listFiles env) (findFiles env) (metadata env).

(** [resetConversation()] *)
Definition resetConversation (p : Panel) : Panel :=
  setMessages [msg system (systemPrompt env)] p.

(** [clearConversation()] *)
Definition clearConversation (s : State) : State :=
  showInformationMessage "Conversation cleared."
    (onPanel (fun p => post ChatClear (resetConversation p)) s).

(** [onUserMessage(text)] with the commands of the panel. *)
Definition userMessage (text : string) (s : State) : State :=
  onPanel
    (onUserMessage (config env) (callLLM env)
       (Commands.handleCommand (workspaceOf (desk s))) text)
    s.

(** [sendMessageToChat(text)] *)
Definition sendMessageToChat (text : string) (s : State) : State :=
  if Js.blank text then s
  else userMessage text (onPanel (post (ChatAppend user text)) s).

(** The [catch] clause of [createFileWithConfirm]: the error is shown and
    thrown again. *)
Definition createFailed (error : Js.Error) (s : State) : State * (Js.Error + unit) :=
  (onPanel (showErrorMessage ("Failed to create file: " ++ Js.message error)) s, inl error).

(** [createFileWithConfirm(relPath, content)] *)
Definition createFileWithConfirm (relPath content : string) (s : State)
  : State * (Js.Error + unit) :=
  match Utils.validateRelativePath (host env) relPath with
  | inl error => createFailed error s
  | inr _ =>
      match workspaceFolder env with
      | None =>
          (showWarningMessage
             "No workspace folder open. Please open a folder to create files." s,
           inr tt)
      | Some folder =>
          match Utils.validateFileContent (formatBytes env) content (maxFileSize env) with
          | inl error => createFailed error s
          | inr _ =>
              let fileUri := joinPath env (Utils.folderUri folder) relPath in
              let exists_ :=
                match files (desk s) fileUri with
                | Some _ => true
                | None => false
                end in
              let action := if exists_ then "Overwrite" else "Create" in
              let question :=
                action ++ " file " ++ Commands.dq ++ relPath ++ Commands.dq
                  ++ " in workspace " ++ Commands.dq ++ Utils.folderName folder
                  ++ Commands.dq ++ "?" in
              let s1 := askModal question s in
              match answer env question with
              | Some choice =>
                  if (choice =? action)%string then
                    match writeError env fileUri with
                    | Some error => createFailed error s1
                    | None =>
                        let s2 := writeFile fileUri content s1 in
                        match openError env fileUri with
                        | Some error => createFailed error s2
                        | None =>
                            (showInformationMessage (action ++ "d file: " ++ relPath)
                               (showTextDocument fileUri s2),
                             inr tt)
                        end
                    end
                  else (s1, inr tt)
              | None => (s1, inr tt)
              end
          end
      end
  end.

(** A message of the webview to the extension. *)
Inductive Incoming :=
| ChatSend (text : option string)
| ChatClearRequest
| FileCreate (file : option File.Suggestion)
| OtherMessage.

(** The handler of [onDidReceiveMessage]. *)
Definition receive (m : Incoming) (s : State) : State :=
  match m with
  | ChatSend (Some text) =>
      if Js.truthy text then userMessage text (onPanel (post (ChatAppend user text)) s)
      else s
  | ChatSend None => s
  | ChatClearRequest => clearConversation s
  | FileCreate (Some file) =>
      match createFileWithConfirm (File.path file) (File.content file) s with
      | (s', inr _) => s'
      | (s', inl error) =>
          onPanel (post (ChatError (Js.message error)))
            (onPanel (showErrorMessage ("Error: " ++ Js.message error)) s')
      end
  | FileCreate None => s
  | OtherMessage => s
  end.

(** The panel as its constructor leaves it. *)
Definition constructed (d : Desk) : State :=
  mkState (resetConversation (mkPanel [] [] [])) d.

End Methods.

(** The states of a panel: it is opened, then handles messages of the webview
    and calls of the commands of the extension, each in the environment of its
    moment. *)
Inductive reachable {Num : Type} : State -> Prop :=
| reach_open (env : Env Num) (d : Desk) : reachable (constructed env d)
| reach_receive (env : Env Num) (m : Incoming) (s : State) :
    reachable s -> reachable (receive env m s)
| reach_send (env : Env Num) (text : string) (s : State) :
    reachable s -> reachable (sendMessageToChat env text s)
| reach_clear (env : Env Num) (s : State) :
    reachable s -> reachable (clearConversation env s).

End Session.

(* ------------------------------------------------------------------------- *)
(** ** media/webview.js: the script of the webview *)

Module Webview.

(** What the view shows, oldest first. *)
Inductive Shown :=
| ShownMessage (role content : string)
| ShownError (message : string)
| ShownSuggestion (filePath content : string).

(** The listener of the messages that the extension posts. *)
Definition onMessage (m : ChatPanel.WebviewMessage) (view : list Shown) : list Shown :=
  match m with
  | ChatPanel.ChatAppend r text =>
      if Js.truthy (roleName r) && Js.truthy text
      then view ++ [ShownMessage (roleName r) text]
      else view
  | ChatPanel.ChatError message =>
      if Js.truthy message then view ++ [ShownError message] else view
  | ChatPanel.ChatClear => []
  | ChatPanel.FileSuggest file =>
      if Js.truthy (File.path file)
      then view ++ [ShownSuggestion (File.path file) (File.content file)]
      else view
  end.

(** The view after a sequence of posted messages. *)
Definition display (posted : list ChatPanel.WebviewMessage) (view : list Shown)
  : list Shown :=
  fold_left (fun v m => onMessage m v) posted view.

(** What [sendMessage] posts to the extension. *)
Inductive Outgoing :=
| PostChatSend (text : string)
| PostFileCreate (file : File.Suggestion).

(** The outcome of [sendMessage]: the message posted, the messages appended
    to the view and whether the input field was emptied. *)
Record Sent := mkSent {
  outgoing : option Outgoing;
  appended : list Shown;
  inputCleared : bool
}.

Definition proposal (filePath : string) : string :=
  "Proposed creating " ++ Js.chr Js.dquote ++ filePath ++ Js.chr Js.dquote
    ++ ". A confirmation dialog will appear.".

(** [sendMessage()] on the value of the input field. *)
Definition sendMessage (value : string) : Sent :=
  let text := Js.trim value in
  if negb (Js.truthy text) then mkSent None [] false
  else
    let chat := mkSent (Some (PostChatSend text)) [] true in
    if Js.startsWith text "/write " then
      match Js.indexOf Js.lf text with
      | Some firstNewline =>
          if (0 <? firstNewline)%nat then
            let filePath := Js.trim (Js.sliceBetween 7 firstNewline text) in
            let content := Js.drop (firstNewline + 1) text in
            if Js.truthy filePath then
              mkSent (Some (PostFileCreate (File.mk filePath content)))
                [ShownMessage "user" text; ShownMessage "assistant" (proposal filePath)]
                true
            else chat
          else chat
      | None => chat
      end
    else chat.

End Webview.

(* ------------------------------------------------------------------------- *)
(** ** Vocabulary of the properties *)

Module Vocabulary.

(** The characters that [escapeHtml] replaces, and those of them that open or
    close markup or an attribute value. *)
Definition isEscaped (c : ascii) : bool :=
  Ascii.eqb c "&" || Ascii.eqb c "<" || Ascii.eqb c ">" || Ascii.eqb c Js.dquote
  || Ascii.eqb c "'".

Definition isMarkup (c : ascii) : bool :=
  Ascii.eqb c "<" || Ascii.eqb c ">" || Ascii.eqb c Js.dquote || Ascii.eqb c "'".

Definition isLineFeed (c : ascii) : bool := Ascii.eqb c Js.lf.

(** A block of a reply: the text before a fence, the path and the content of
    the fence. *)
Record Block := mkBlock { before : string; blockPath : string; blockContent : string }.

Definition renderBlock (b : Block) : string :=
  before b ++ ChatPanel.fence (blockPath b) (blockContent b).

Fixpoint renderBlocks (bs : list Block) : string :=
  match bs with
  | [] => ""
  | b :: bs' => renderBlock b ++ renderBlocks bs'
  end.

Definition suggestionOf (b : Block) : File.Suggestion :=
  File.mk (Js.trim (blockPath b)) (blockContent b).

(** A block that the pattern reads back: no backtick before the fence, a path
    that is not empty and has no double quote, a content without backtick
    that does not begin with a line break. *)
Definition wellFormed (b : Block) : bool :=
  ChatPanel.noBacktick (before b)
  && Js.truthy (blockPath b)
  && Js.allChars ChatPanel.notQuote (blockPath b)
  && ChatPanel.noBacktick (blockContent b)
  && match blockContent b with
     | String c _ => negb (ChatPanel.isLineBreak c)
     | EmptyString => true
     end.

(** The conversation of a panel: one system message, at the head. *)
Definition oneSystemMessageFirst (history : list ChatMessage) : Prop :=
  exists prompt later,
    history = msg system prompt :: later
    /\ forallb (Utils.notSystem Utils.chatRole) later = true.

End Vocabulary.

(* ------------------------------------------------------------------------- *)
(** ** A small environment for the examples *)

Module Examples.

Definition config : ChatPanel.LLMConfig unit :=
  ChatPanel.mkConfig "http://localhost:11434/v1/chat/completions" "ollama" "llama3.2"
    tt tt 50 120000.

(** A POSIX host with the workspace [demo], a model that answers [hello], a
    user who confirms every creation, and a file system without failures. *)
Definition env : Session.Env unit :=
  Session.mkEnv unit config "S" 1048576
    (fun _ => inr "hello")
    Path.posix
    (fun root relPath => root ++ "/" ++ relPath)
    (fun uri => Js.newError ("Unable to read file " ++ uri))
    (Some (Utils.mkFolder "demo" "file:///demo"))
    (fun _ => inr [])
    (fun _ _ => inr [])
    (inr (Commands.mkMetadata "demo" "/demo" false false))
    (fun _ => "some bytes")
    (fun _ => Some "Create")
    (fun _ => None)
    (fun _ => None).

Definition emptyDesk : Session.Desk := Session.mkDesk (fun _ => None) [] [] [] [].

End Examples.

(* ========================================================================= *)
(** * Properties *)

(* ------------------------------------------------------------------------- *)
(** ** History trimming *)

Section HistoryFacts.

Import Utils.

Context {T : Type} (roleOf : T -> string).

Local Abbreviation isSys := (isSystem roleOf).
Local Abbreviation notSys := (notSystem roleOf).
Local Abbreviation trim := (trimMessageHistory roleOf).

Lemma partition_length (l : list T) :
  (List.length (filter isSys l) + List.length (filter notSys l) = List.length l)%nat.
Proof.
  induction l as [|m l IH]; simpl; [reflexivity|].
  unfold notSystem in *. destruct (isSys m); simpl; lia.
Qed.

Lemma filter_system_system (l : list T) : filter isSys (filter isSys l) = filter isSys l.
Proof. apply forallb_filter_id, forallb_filter. Qed.

Lemma filter_other_other (l : list T) : filter notSys (filter notSys l) = filter notSys l.
Proof. apply forallb_filter_id, forallb_filter. Qed.

Lemma filter_system_other (l : list T) : filter isSys (filter notSys l) = [].
Proof.
  induction l as [|m l IH]; simpl; [reflexivity|].
  unfold notSystem in *. destruct (isSys m) eqn:E; simpl; [exact IH|].
  rewrite E. exact IH.
Qed.

Lemma filter_other_system (l : list T) : filter notSys (filter isSys l) = [].
Proof.
  induction l as [|m l IH]; simpl; [reflexivity|].
  unfold notSystem in *. destruct (isSys m) eqn:E; simpl; [|exact IH].
  rewrite E. exact IH.
Qed.

Lemma filter_skipn_fixed (f : T -> bool) (n : nat) (l : list T) :
  forallb f l = true -> filter f (skipn n l) = skipn n l.
Proof.
  intros H. apply forallb_filter_id. rewrite forallb_forall in *.
  intros x Hx. apply H. rewrite <- (firstn_skipn n l). apply in_or_app. now right.
Qed.

Lemma filter_skipn_none (f g : T -> bool) (n : nat) (l : list T) :
  filter f l = [] -> filter f (skipn n l) = [].
Proof.
  intros H. rewrite <- (firstn_skipn n l), filter_app in H.
  now apply app_eq_nil in H.
Qed.

(** A negative start within the array takes that many elements from the end. *)
Lemma slice_negative {A : Type} (l : list A) (n : nat) :
  (0 < n <= List.length l)%nat -> Js.slice l (- Z.of_nat n) = lastn n l.
Proof.
  intros [Hpos Hle]. unfold Js.slice, lastn.
  replace (- Z.of_nat n <? 0) with true by (symmetry; apply Z.ltb_lt; lia).
  f_equal. lia.
Qed.

Lemma slice_zero {A : Type} (l : list A) : Js.slice l 0 = l.
Proof. unfold Js.slice. simpl. rewrite Z.min_l by lia. reflexivity. Qed.

(** A non-negative start drops that many elements from the front. *)
Lemma slice_nonnegative {A : Type} (l : list A) (k : Z) :
  0 <= k -> Js.slice l k = skipn (Z.to_nat k) l.
Proof.
  intros Hk. unfold Js.slice.
  replace (k <? 0) with false by (symmetry; apply Z.ltb_ge; lia).
  destruct (Z.le_gt_cases k (Z.of_nat (List.length l))).
  - rewrite Z.min_l by lia. reflexivity.
  - rewrite Z.min_r by lia. rewrite Nat2Z.id.
    rewrite skipn_all. symmetry. apply skipn_all2. lia.
Qed.

Lemma trim_within_bound (messages : list T) (maxMessages : Z) :
  Z.of_nat (List.length messages) <= maxMessages -> trim messages maxMessages = messages.
Proof.
  intros H. unfold trimMessageHistory.
  now replace (Z.of_nat (List.length messages) <=? maxMessages) with true
    by (symmetry; apply Z.leb_le; exact H).
Qed.

Lemma trim_beyond_bound (messages : list T) (maxMessages : Z) :
  maxMessages < Z.of_nat (List.length messages) ->
  trim messages maxMessages =
    (filter isSys messages
      ++ Js.slice (filter notSys messages)
           (- maxMessages + Z.of_nat (List.length (filter isSys messages))))%list.
Proof.
  intros H. unfold trimMessageHistory.
  now replace (Z.of_nat (List.length messages) <=? maxMessages) with false
    by (symmetry; apply Z.leb_gt; exact H).
Qed.

(** Where the bound exceeds the number of system messages, the function does
    what the contract says. *)
Lemma trim_meets_contract (messages : list T) (maxMessages : Z) :
  Z.of_nat (List.length (filter isSys messages)) < maxMessages ->
  trim messages maxMessages = trimContract roleOf messages maxMessages.
Proof.
  intros Hs. unfold trimContract.
  destruct (Z.leb_spec (Z.of_nat (List.length messages)) maxMessages) as [Hle|Hgt].
  - now apply trim_within_bound.
  - rewrite trim_beyond_bound by exact Hgt. f_equal.
    pose proof (partition_length messages) as Hp.
    set (s := List.length (filter isSys messages)) in *.
    set (others := filter notSys messages) in *.
    replace (- maxMessages + Z.of_nat s) with (- Z.of_nat (Z.to_nat (maxMessages - Z.of_nat s)))
      by lia.
    apply slice_negative. lia.
Qed.

Lemma trim_length_beyond (messages : list T) (maxMessages : Z) :
  maxMessages < Z.of_nat (List.length messages) ->
  Z.of_nat (List.length (filter isSys messages)) < maxMessages ->
  Z.of_nat (List.length (trim messages maxMessages)) = maxMessages.
Proof.
  intros Hgt Hs. rewrite trim_meets_contract by exact Hs. unfold trimContract.
  replace (Z.of_nat (List.length messages) <=? maxMessages) with false
    by (symmetry; apply Z.leb_gt; exact Hgt).
  pose proof (partition_length messages) as Hp.
  unfold lastn. rewrite length_app, length_skipn. lia.
Qed.

(** Trimming twice is trimming once whenever the system messages do not
    outnumber the bound. *)
Lemma trim_idempotent_few_system (messages : list T) (n : Z) :
  Z.of_nat (List.length (filter isSys messages)) <= n ->
  trim (trim messages n) n = trim messages n.
Proof.
  intros Hs.
  destruct (Z.le_gt_cases (Z.of_nat (List.length messages)) n) as [Hle|Hgt].
  - now rewrite !trim_within_bound by (rewrite ?trim_within_bound; assumption).
  - destruct (Z.eq_dec (Z.of_nat (List.length (filter isSys messages))) n) as [Heq|Hne].
    + pose proof (partition_length messages) as Hp.
      assert (Hr : trim messages n = (filter isSys messages ++ filter notSys messages)%list).
      { rewrite trim_beyond_bound by exact Hgt.
        replace (- n + Z.of_nat (List.length (filter isSys messages))) with 0 by lia.
        now rewrite slice_zero. }
      rewrite Hr. rewrite trim_beyond_bound by (rewrite length_app; lia).
      rewrite !filter_app, filter_system_system, filter_system_other,
        filter_other_system, filter_other_other, app_nil_r. simpl.
      replace (- n + Z.of_nat (List.length (filter isSys messages))) with 0 by lia.
      now rewrite slice_zero.
    + apply trim_within_bound. rewrite trim_length_beyond; lia.
Qed.

(** C3: for every conversation whose first message has role system and every
    bound [n >= 1], the trimmed conversation starts with that same message,
    unchanged: trimming never evicts the leading system message. *)
Theorem trim_keeps_leading_system (first : T) (others : list T) (n : Z) :
  1 <= n ->
  isSys first = true ->
  hd_error (trim (first :: others) n) = Some first.
Proof.
  intros _ Hsys. unfold trimMessageHistory.
  destruct (Z.of_nat (List.length (first :: others)) <=? n); [reflexivity|].
  cbn [filter]. rewrite Hsys. reflexivity.
Qed.

(** C10: when the conversation exceeds the bound, every system message,
    wherever it stood, is gathered (in original order) into one block at the
    front of the result; what follows the block holds no system message and is
    the slice of the non-system messages sized with the count of all system
    messages; so each system message comes ahead of each retained non-system
    message, also of those that originally preceded it. *)
Theorem trim_gathers_all_system (messages : list T) (maxMessages : Z) :
  maxMessages < Z.of_nat (List.length messages) ->
  let systemCount := List.length (filter isSys messages) in
  let result := trim messages maxMessages in
  firstn systemCount result = filter isSys messages
  /\ skipn systemCount result =
       Js.slice (filter notSys messages) (- maxMessages + Z.of_nat systemCount)
  /\ forallb notSys (skipn systemCount result) = true
  /\ (Z.of_nat systemCount < maxMessages ->
       Z.of_nat (List.length (skipn systemCount result))
       = maxMessages - Z.of_nat systemCount)
  /\ (forall s u, In s messages -> isSys s = true ->
                  In u result -> isSys u = false ->
       exists a b c, result = (a ++ s :: b ++ u :: c)%list).
Proof.
  intros Hgt systemCount result.
  assert (Hres : result
                 = (filter isSys messages
                    ++ Js.slice (filter notSys messages)
                         (- maxMessages + Z.of_nat systemCount))%list)
    by (apply trim_beyond_bound; exact Hgt).
  assert (Hfirst : firstn systemCount result = filter isSys messages).
  { rewrite Hres. unfold systemCount.
    rewrite firstn_app, firstn_all, Nat.sub_diag. simpl. apply app_nil_r. }
  assert (Hskip : skipn systemCount result
                  = Js.slice (filter notSys messages)
                      (- maxMessages + Z.of_nat systemCount)).
  { rewrite Hres at 1. unfold systemCount at 1.
    rewrite skipn_app, skipn_all, Nat.sub_diag. reflexivity. }
  assert (Htail : forallb notSys (skipn systemCount result) = true).
  { rewrite Hskip. unfold Js.slice. rewrite forallb_forall. intros x Hx.
    assert (Hin : In x (filter notSys messages)).
    { rewrite <- (firstn_skipn
        (Z.to_nat
           (if - maxMessages + Z.of_nat systemCount <? 0
            then Z.max (Z.of_nat (List.length (filter notSys messages))
                        + (- maxMessages + Z.of_nat systemCount)) 0
            else Z.min (- maxMessages + Z.of_nat systemCount)
                   (Z.of_nat (List.length (filter notSys messages)))))
        (filter notSys messages)).
      apply in_or_app. now right. }
    apply filter_In in Hin. tauto. }
  repeat split; try assumption.
  - intros Hcount. rewrite Hskip.
    pose proof (partition_length messages) as Hp. fold systemCount in Hp.
    replace (- maxMessages + Z.of_nat systemCount)
      with (- Z.of_nat (Z.to_nat (maxMessages - Z.of_nat systemCount))) by lia.
    rewrite slice_negative by lia.
    unfold lastn. rewrite length_skipn. lia.
  - intros s u Hs Hsys Hu Hnot.
    assert (Hs' : In s (filter isSys messages)) by (apply filter_In; tauto).
    destruct (in_split _ _ Hs') as (a & b1 & Hsplit).
    rewrite <- (firstn_skipn systemCount result) in Hu.
    apply in_app_or in Hu. destruct Hu as [Hu|Hu].
    + rewrite Hfirst in Hu. apply filter_In in Hu. destruct Hu as [_ Hu].
      rewrite Hu in Hnot. discriminate.
    + destruct (in_split _ _ Hu) as (b2 & c & Hsplit2).
      exists a, (b1 ++ b2)%list, c.
      rewrite <- (firstn_skipn systemCount result), Hfirst, Hsplit, Hsplit2.
      repeat rewrite <- app_assoc. reflexivity.
Qed.

End HistoryFacts.

Lemma trim_keeps_leading_system_witness :
  1 <= 2
  /\ Utils.isSystem Utils.chatRole (msg system "S") = true
  /\ hd_error
       (Utils.trimMessageHistory Utils.chatRole
          [msg system "S"; msg user "a"; msg assistant "b"; msg user "c"] 2)
     = Some (msg system "S").
Proof.
  split; [lia|]. split; [reflexivity|].
  apply (trim_keeps_leading_system Utils.chatRole); [lia | reflexivity].
Defined.

(** The conversation [user a; user b; system S; user c] cut to three messages:
    the system message moves ahead of [user b], which stood before it. *)
Lemma trim_gathers_all_system_witness :
  3 < Z.of_nat
        (List.length [msg user "a"; msg user "b"; msg system "S"; msg user "c"])
  /\ Utils.trimMessageHistory Utils.chatRole
       [msg user "a"; msg user "b"; msg system "S"; msg user "c"] 3
     = [msg system "S"; msg user "b"; msg user "c"]
  /\ firstn 1
       (Utils.trimMessageHistory Utils.chatRole
          [msg user "a"; msg user "b"; msg system "S"; msg user "c"] 3)
     = [msg system "S"].
Proof.
  split; [simpl; lia|]. split; [reflexivity|].
  apply (trim_gathers_all_system Utils.chatRole
           [msg user "a"; msg user "b"; msg system "S"; msg user "c"] 3).
  simpl; lia.
Defined.

(** C1: with a bound equal to the number of system messages the code drops
    nothing, where the contract keeps the system messages and none of the
    others: on [system S; user a; user b] with bound 1 the code returns all
    three messages and the contract [system S] alone. *)
Theorem trim_at_system_count_drops_nothing :
  Utils.trimMessageHistory Utils.chatRole
    [msg system "S"; msg user "a"; msg user "b"] 1
  = [msg system "S"; msg user "a"; msg user "b"]
  /\ Utils.trimContract Utils.chatRole
       [msg system "S"; msg user "a"; msg user "b"] 1
     = [msg system "S"].
Proof. split; reflexivity. Qed.

Section IdempotenceFacts.

Import Utils.

Context {T : Type} (roleOf : T -> string).


End IdempotenceFacts.



(* ------------------------------------------------------------------------- *)
(** ** Path validation *)

Section PathFacts.

Import Utils.

Lemma throws_inl {A : Type} (e : Js.Error) : throws (inl e : Js.Error + A).
Proof. now exists e. Qed.

(** A path with a null byte is rejected on every host: if no earlier check
    throws, the last one does. *)
Lemma null_byte_rejected (h : Path.Host) (relPath : string) :
  Js.includes relPath (Js.chr Js.nul) = true ->
  throws (validateRelativePath h relPath).
Proof.
  intros Hnul. unfold validateRelativePath. rewrite Hnul. cbv zeta.
  repeat match goal with
         | |- throws (if ?c then _ else _) => destruct c; [apply throws_inl|]
         end.
  apply throws_inl.
Qed.

(** C8: on both hosts [validateRelativePath] throws for [../x], for
    [/etc/passwd] and for every path that contains a null byte, and returns
    for [src/app.ts]. *)
Theorem validateRelativePath_rejects_and_accepts (h : Path.Host) (withNul : string) :
  h = Path.posix \/ h = Path.win32 ->
  Js.includes withNul (Js.chr Js.nul) = true ->
  throws (validateRelativePath h "../x")
  /\ throws (validateRelativePath h "/etc/passwd")
  /\ throws (validateRelativePath h withNul)
  /\ validateRelativePath h "src/app.ts" = inr tt.
Proof.
  intros Hh Hnul.
  split; [|split; [|split]].
  - destruct Hh as [-> | ->]; apply throws_inl.
  - destruct Hh as [-> | ->]; apply throws_inl.
  - now apply null_byte_rejected.
  - destruct Hh as [-> | ->]; reflexivity.
Qed.

End PathFacts.

Lemma validateRelativePath_rejects_and_accepts_witness :
  (Path.win32 = Path.posix \/ Path.win32 = Path.win32)
  /\ Js.includes ("src/a" ++ Js.chr Js.nul ++ ".ts") (Js.chr Js.nul) = true
  /\ Utils.throws (Utils.validateRelativePath Path.win32 ("src/a" ++ Js.chr Js.nul ++ ".ts"))
  /\ Utils.validateRelativePath Path.win32 "src/app.ts" = inr tt.
Proof.
  split; [now right|]. split; [reflexivity|].
  pose proof (validateRelativePath_rejects_and_accepts Path.win32
                ("src/a" ++ Js.chr Js.nul ++ ".ts") (or_intror eq_refl) eq_refl) as H.
  split; [exact (proj1 (proj2 (proj2 H))) | exact (proj2 (proj2 (proj2 H)))].
Defined.

(** On a Windows host a path that climbs back to a drive is normalized behind
    [.\] and rejected for its colon. *)
Lemma win32_drive_behind_a_climb :
  Path.win32Normalize "a/../C:/x" = ".\C:\x"
  /\ Utils.validateRelativePath Path.win32 "a/../C:/x"
     = inl (Js.newError "Path contains invalid characters").
Proof. split; reflexivity. Qed.

(* ------------------------------------------------------------------------- *)
(** ** The endpoint calls *)

Section EndpointFacts.

Import Llm.

Context {Num : Type}.

Variables (url model : string) (messages : list ChatMessage).
Variables (headers : list (string * string)) (temperature maxTokens : Num).
Variable timeout : Z.

Local Abbreviation openAI fetch :=
  (callOpenAIEndpoint fetch url model messages headers temperature maxTokens timeout).
Local Abbreviation ollama fetch :=
  (callOllamaEndpoint fetch url model messages headers temperature maxTokens timeout).
Local Abbreviation openAIServer fetch :=
  (fetch url (openAIInit model messages headers temperature maxTokens)).
Local Abbreviation ollamaServer fetch :=
  (fetch url (ollamaInit model messages headers temperature maxTokens)).

(** An error thrown inside the [try] block passes the [catch] clause as it
    is. *)
Lemma onCatch_newError (msg : string) : onCatch timeout (Js.newError msg) = Js.newError msg.
Proof. reflexivity. Qed.

Lemma openAI_resolved (fetch : Fetch Num ResponseOpenAI) (r : Response ResponseOpenAI) :
  fetchWithTimeout (openAIServer fetch) timeout = inr r ->
  openAI fetch =
    match readOpenAI r with
    | inl e => inl (onCatch timeout e)
    | inr reply => inr reply
    end.
Proof. intros H. unfold callOpenAIEndpoint. now rewrite H. Qed.

Lemma ollama_resolved (fetch : Fetch Num ResponseOllama) (r : Response ResponseOllama) :
  fetchWithTimeout (ollamaServer fetch) timeout = inr r ->
  ollama fetch =
    match readOllama r with
    | inl e => inl (onCatch timeout e)
    | inr reply => inr reply
    end.
Proof. intros H. unfold callOllamaEndpoint. now rewrite H. Qed.

Lemma empty_string_or_truthy (s : string) : s = "" \/ Js.truthy s = true.
Proof. destruct s; [now left | now right]. Qed.

Lemma truthy_nonempty (s : string) : Js.truthy s = true -> s <> "".
Proof. destruct s; [discriminate | discriminate]. Qed.

(** What [readOpenAI] does with a parsed success body. *)
Lemma readOpenAI_success (r : Response ResponseOpenAI) (b : ResponseOpenAI) :
  ok r = true -> json r = inr b ->
  (noContentOpenAI b /\ exists e, readOpenAI r = inl (Js.newError e)
                                  /\ EmptyResponseError (Js.newError e))
  \/ (~ noContentOpenAI b
      /\ exists c, match choices b with
                   | Some cs => firstChoiceContent cs = Some c
                   | None => False
                   end
                   /\ c <> "" /\ readOpenAI r = inr (Js.trim c)).
Proof.
  intros Hok Hjson. unfold readOpenAI, noContentOpenAI, noUsableContent.
  rewrite Hok, Hjson. simpl.
  destruct (choices b) as [[|ch cs]|].
  - left. split; [now left|]. eexists. split; [reflexivity|]. now left.
  - destruct (firstChoiceContent (ch :: cs)) as [c|] eqn:Hc.
    + destruct (empty_string_or_truthy c) as [-> | Ht].
      * left. split; [now right; right|]. eexists. split; [reflexivity|].
        right. now left.
      * right. rewrite Ht. simpl. split.
        -- intros [Hnil | [Hnone | Hemp]]; try discriminate.
           injection Hemp as ->. discriminate.
        -- exists c. repeat split. now apply truthy_nonempty.
    + left. split; [now right; left|]. eexists. split; [reflexivity|].
      right. now left.
  - left. split; [exact I|]. eexists. split; [reflexivity|]. now left.
Qed.

(** What [readOllama] does with a parsed success body. *)
Lemma readOllama_success (r : Response ResponseOllama) (b : ResponseOllama) :
  ok r = true -> json r = inr b ->
  (noContentOllama b /\ readOllama r = inl (Js.newError "Empty response from Ollama"))
  \/ (~ noContentOllama b
      /\ exists m c, ollamaMessage b = Some m /\ messageContent m = Some c
                     /\ c <> "" /\ readOllama r = inr (Js.trim c)).
Proof.
  intros Hok Hjson. unfold readOllama, noContentOllama, noUsableContent.
  rewrite Hok, Hjson. simpl.
  destruct (ollamaMessage b) as [m|]; [|left; now split].
  destruct (messageContent m) as [c|] eqn:Hc; [|left; split; [now left | reflexivity]].
  destruct (empty_string_or_truthy c) as [-> | Ht].
  - left. split; [now right | reflexivity].
  - right. rewrite Ht. simpl. split.
    + intros [Hnone | Hemp]; [discriminate|]. injection Hemp as ->. discriminate.
    + exists m, c. split; [reflexivity|]. split; [exact Hc|].
      split; [now apply truthy_nonempty | reflexivity].
Qed.

(** The error for a failure status is not an empty-response error. *)
Lemma api_error_is_not_empty_response (fetch : Fetch Num ResponseOpenAI)
  (r : Response ResponseOpenAI) :
  fetchWithTimeout (openAIServer fetch) timeout = inr r ->
  ok r = false ->
  exists e, openAI fetch = inl e /\ ~ EmptyResponseError e.
Proof.
  intros Hfetch Hok. rewrite (openAI_resolved _ _ Hfetch).
  unfold readOpenAI. rewrite Hok. simpl. eexists. split; [reflexivity|].
  intros [H | [H | H]]; discriminate H.
Qed.

Lemma ollama_api_error_is_not_empty_response (fetch : Fetch Num ResponseOllama)
  (r : Response ResponseOllama) :
  fetchWithTimeout (ollamaServer fetch) timeout = inr r ->
  ok r = false ->
  exists e, ollama fetch = inl e /\ ~ EmptyResponseError e.
Proof.
  intros Hfetch Hok. rewrite (ollama_resolved _ _ Hfetch).
  unfold readOllama. rewrite Hok. simpl. eexists. split; [reflexivity|].
  intros [H | [H | H]]; discriminate H.
Qed.

(** A rejection of [response.json()] passes the [catch] clause as it is, and
    it is not one of the empty-response errors. *)
Lemma parser_error_passes (e : Js.Error) :
  parserError e -> onCatch timeout e = e /\ ~ EmptyResponseError e.
Proof.
  intros [Hname | Hname]; (split;
    [unfold onCatch; now rewrite Hname
    |intros [H | [H | H]]; rewrite H in Hname; discriminate Hname]).
Qed.

Lemma blank_false_truthy (c : string) : Js.blank c = false -> Js.truthy c = true.
Proof. unfold Js.blank. now destruct (Js.truthy c). Qed.

Lemma noUsableContent_unusable (c : option string) :
  noUsableContent c -> usableContent c = false.
Proof. now intros [-> | ->]. Qed.

(** C5, as the code has it.  On a success-status response that arrives before
    the timer fires: a body that parses and has no choices, or no content in
    its first choice or in its message, or the empty string there, raises the
    empty-response error; a content that is not blank is returned, trimmed;
    the empty-response error is raised only for a parsed body without usable
    content; and a body that does not parse fails with the error of the
    parser, which is not an empty-response error. *)
Theorem empty_response_exactly_without_content
  (fetchOpenAI : Fetch Num ResponseOpenAI) (fetchOllama : Fetch Num ResponseOllama)
  (ro : Response ResponseOpenAI) (rl : Response ResponseOllama) :
  fetchWithTimeout (openAIServer fetchOpenAI) timeout = inr ro ->
  ok ro = true ->
  fetchWithTimeout (ollamaServer fetchOllama) timeout = inr rl ->
  ok rl = true ->
  (forall e, json ro = inl e -> parserError e) ->
  (forall e, json rl = inl e -> parserError e) ->
  (forall bo, json ro = inr bo -> noContentOpenAI bo ->
     exists e, openAI fetchOpenAI = inl e /\ EmptyResponseError e)
  /\ (forall bo ch more m c,
        json ro = inr bo -> choices bo = Some (ch :: more) ->
        choiceMessage ch = Some m -> messageContent m = Some c -> Js.blank c = false ->
        openAI fetchOpenAI = inr (Js.trim c))
  /\ ((exists e, openAI fetchOpenAI = inl e /\ EmptyResponseError e) ->
      usableContent (contentOpenAI ro) = false /\ exists bo, json ro = inr bo)
  /\ (forall e, json ro = inl e ->
        openAI fetchOpenAI = inl e /\ ~ EmptyResponseError e)
  /\ (forall bl, json rl = inr bl -> noContentOllama bl ->
        exists e, ollama fetchOllama = inl e /\ EmptyResponseError e)
  /\ (forall bl m c,
        json rl = inr bl -> ollamaMessage bl = Some m -> messageContent m = Some c ->
        Js.blank c = false ->
        ollama fetchOllama = inr (Js.trim c))
  /\ ((exists e, ollama fetchOllama = inl e /\ EmptyResponseError e) ->
      usableContent (contentOllama rl) = false /\ exists bl, json rl = inr bl)
  /\ (forall e, json rl = inl e ->
        ollama fetchOllama = inl e /\ ~ EmptyResponseError e).
Proof.
  intros HfO HokO HfL HokL HpO HpL.
  rewrite (openAI_resolved _ _ HfO), (ollama_resolved _ _ HfL).
  repeat split.
  - intros bo Hj Hno.
    destruct (readOpenAI_success ro bo HokO Hj)
      as [(_ & e & -> & He) | (Hyes & _)]; [|contradiction].
    exists (Js.newError e). now split.
  - intros bo ch more m c Hj Hch Hm Hc Hb.
    unfold readOpenAI. rewrite HokO, Hj, Hch. simpl. rewrite Hm, Hc.
    now rewrite (blank_false_truthy _ Hb).
  - destruct H as (e & He & Hempty). unfold contentOpenAI.
    destruct (json ro) as [e0|bo] eqn:Hj.
    + exfalso. destruct (parser_error_passes e0 (HpO _ eq_refl)) as (Hpass & Hnot).
      unfold readOpenAI in He. rewrite HokO, Hj in He. simpl in He.
      rewrite Hpass in He. injection He as <-. contradiction.
    + destruct (readOpenAI_success ro bo HokO Hj)
        as [(Hno & _) | (_ & c & _ & _ & Hr)].
      * unfold noContentOpenAI in Hno. destruct (choices bo) as [cs|]; [|reflexivity].
        destruct Hno as [-> | Hno]; [reflexivity|].
        now apply noUsableContent_unusable.
      * rewrite Hr in He. discriminate He.
  - destruct H as (e & He & Hempty).
    destruct (json ro) as [e0|bo] eqn:Hj; [|now exists bo].
    exfalso. destruct (parser_error_passes e0 (HpO _ eq_refl)) as (Hpass & Hnot).
    unfold readOpenAI in He. rewrite HokO, Hj in He. simpl in He.
    rewrite Hpass in He. injection He as <-. contradiction.
  - unfold readOpenAI. rewrite HokO, H. simpl.
    now rewrite (proj1 (parser_error_passes e (HpO _ H))).
  - exact (proj2 (parser_error_passes e (HpO _ H))).
  - intros bl Hj Hno.
    destruct (readOllama_success rl bl HokL Hj) as [(_ & ->) | (Hyes & _)]; [|contradiction].
    eexists. split; [reflexivity|]. right. now right.
  - intros bl m c Hj Hm Hc Hb.
    unfold readOllama. rewrite HokL, Hj, Hm, Hc. simpl.
    now rewrite (blank_false_truthy _ Hb).
  - destruct H as (e & He & Hempty). unfold contentOllama.
    destruct (json rl) as [e0|bl] eqn:Hj.
    + exfalso. destruct (parser_error_passes e0 (HpL _ eq_refl)) as (Hpass & Hnot).
      unfold readOllama in He. rewrite HokL, Hj in He. simpl in He.
      rewrite Hpass in He. injection He as <-. contradiction.
    + destruct (readOllama_success rl bl HokL Hj)
        as [(Hno & _) | (_ & m & c & _ & _ & _ & Hr)].
      * unfold noContentOllama in Hno. destruct (ollamaMessage bl) as [m|]; [|reflexivity].
        now apply noUsableContent_unusable.
      * rewrite Hr in He. discriminate He.
  - destruct H as (e & He & Hempty).
    destruct (json rl) as [e0|bl] eqn:Hj; [|now exists bl].
    exfalso. destruct (parser_error_passes e0 (HpL _ eq_refl)) as (Hpass & Hnot).
    unfold readOllama in He. rewrite HokL, Hj in He. simpl in He.
    rewrite Hpass in He. injection He as <-. contradiction.
  - unfold readOllama. rewrite HokL, H. simpl.
    now rewrite (proj1 (parser_error_passes e (HpL _ H))).
  - exact (proj2 (parser_error_passes e (HpL _ H))).
Qed.

Lemma allDigits_uint (d : Decimal.uint) : allDigits (NilEmpty.string_of_uint d) = true.
Proof. induction d; simpl; auto. Qed.

Lemma decimal_is_whole (k : N) : wholeNumberText (Js.decimal k) = true.
Proof.
  unfold Js.decimal, NilZero.string_of_uint, wholeNumberText.
  destruct (N.to_uint k) eqn:E; try reflexivity;
    simpl; apply (allDigits_uint u).
Qed.

Lemma append_empty (s : string) : s ++ "" = s.
Proof. induction s as [|c s IH]; simpl; [reflexivity | now rewrite IH]. Qed.

(** A whole number of seconds is rendered as that number. *)
Lemma thousandthsText_whole (k : N) : Js.thousandthsText (1000 * Z.of_N k) = Js.decimal k.
Proof.
  unfold Js.thousandthsText. cbv zeta.
  replace (1000 * Z.of_N k <? 0) with false by (symmetry; apply Z.ltb_ge; lia).
  replace (Z.abs_N (1000 * Z.of_N k)) with (k * 1000)%N by lia.
  rewrite N.div_mul by discriminate. rewrite N.Div0.mod_mul, N.eqb_refl.
  apply append_empty.
Qed.

Lemma fetch_aborts {J : Type} (server : Transport J) :
  1 <= timeout ->
  noResponseWithin server timeout -> fetchWithTimeout server timeout = inl abortError.
Proof.
  intros Hpos. assert (Hdelay : Js.timerDelay timeout <= timeout).
  { unfold Js.timerDelay. destruct ((1 <=? timeout) && (timeout <=? Js.TIMEOUT_MAX)); lia. }
  destruct server as [|ms e|ms r]; simpl; intros H; [reflexivity| |];
    now replace (ms <? Js.timerDelay timeout) with false by (symmetry; apply Z.ltb_ge; lia).
Qed.

Lemma length_of_append (a b : string) :
  String.length (a ++ b) = (String.length a + String.length b)%nat.
Proof. induction a as [|c a IH]; simpl; [reflexivity | now rewrite IH]. Qed.

Lemma append_cancel_right (a b c : string) : a ++ c = b ++ c -> a = b.
Proof.
  revert b. induction a as [|x a IH]; intros [|y b] H; simpl in H.
  - reflexivity.
  - exfalso. apply (f_equal String.length) in H. simpl in H.
    rewrite length_of_append in H. lia.
  - exfalso. apply (f_equal String.length) in H. simpl in H.
    rewrite length_of_append in H. lia.
  - injection H as -> H. now rewrite (IH _ H).
Qed.

Lemma allDigits_point (a b : string) : allDigits (a ++ "." ++ b) = false.
Proof.
  induction a as [|x a IH]; simpl in *; [reflexivity|]. rewrite IH. apply andb_false_r.
Qed.

(** The figure of the message is a whole number exactly for a whole number of
    seconds. *)
Lemma thousandthsText_whole_iff :
  0 < timeout ->
  wholeNumberText (Js.thousandthsText timeout) = true <-> timeout mod 1000 = 0.
Proof.
  intros Hpos. split.
  - intros Hwhole. unfold Js.thousandthsText in Hwhole. cbv zeta in Hwhole.
    replace (timeout <? 0) with false in Hwhole by (symmetry; apply Z.ltb_ge; lia).
    destruct (Z.abs_N timeout mod 1000 =? 0)%N eqn:Hmod.
    + apply N.eqb_eq in Hmod. apply (f_equal Z.of_N) in Hmod.
      rewrite N2Z.inj_mod, N2Z.inj_abs_N, Z.abs_eq in Hmod by lia. exact Hmod.
    + unfold wholeNumberText in Hwhole. rewrite allDigits_point in Hwhole.
      now rewrite andb_false_r in Hwhole.
  - intros Hmod. apply Z.mod_divide in Hmod; [|discriminate].
    destruct Hmod as (q & ->).
    replace (q * 1000) with (1000 * Z.of_N (Z.to_N q)) by lia.
    rewrite thousandthsText_whole. apply decimal_is_whole.
Qed.

(** C9, as the code has it: for every timeout of the range, when no response
    arrives within the bound both calls fail with an error whose message gives
    the bound in seconds, [timeout / 1000]; the figure is a whole number
    exactly when the timeout is a whole number of seconds, and it is then that
    number. *)
Theorem timeout_reported_in_seconds
  (fetchOpenAI : Fetch Num ResponseOpenAI) (fetchOllama : Fetch Num ResponseOllama) :
  0 < timeout < 10 ^ 15 ->
  noResponseWithin (openAIServer fetchOpenAI) timeout ->
  noResponseWithin (ollamaServer fetchOllama) timeout ->
  let timedOut :=
    Js.newError ("Request timed out after " ++ Js.thousandthsText timeout ++ " seconds") in
  openAI fetchOpenAI = inl timedOut
  /\ ollama fetchOllama = inl timedOut
  /\ (TimeoutErrorInWholeSeconds timedOut <-> timeout mod 1000 = 0)
  /\ (forall k : N, timeout = 1000 * Z.of_N k -> Js.thousandthsText timeout = Js.decimal k).
Proof.
  intros Hrange HO HL timedOut. split; [|split; [|split]].
  - unfold callOpenAIEndpoint. rewrite (fetch_aborts _ ltac:(lia) HO). reflexivity.
  - unfold callOllamaEndpoint. rewrite (fetch_aborts _ ltac:(lia) HL). reflexivity.
  - rewrite <- (thousandthsText_whole_iff ltac:(lia)). split.
    + intros (secs & Hwhole & Hmsg). unfold timedOut in Hmsg.
      injection Hmsg as Hmsg. apply append_cancel_right in Hmsg. now rewrite Hmsg.
    + intros Hwhole. exists (Js.thousandthsText timeout). now split.
  - intros k ->. apply thousandthsText_whole.
Qed.

End EndpointFacts.

(** A server that answers in 10 ms, within a timeout of one second: the
    OpenAI-compatible body has one choice, the native body has no message. *)
Lemma empty_response_exactly_without_content_witness :
  let bo := Llm.mkResponseOpenAI
              (Some [Llm.mkChoice (Some (Llm.mkResponseMessage (Some "  hi  ")))]) in
  let bl := Llm.mkResponseOllama None in
  let ro := Llm.mkResponse true 200%N "OK" "" (inr bo) in
  let rl := Llm.mkResponse true 200%N "OK" "" (inr bl) in
  let fo : Llm.Fetch unit Llm.ResponseOpenAI := fun _ _ => Llm.RespondsAfter 10 ro in
  let fl : Llm.Fetch unit Llm.ResponseOllama := fun _ _ => Llm.RespondsAfter 10 rl in
  Llm.fetchWithTimeout (fo "u" (Llm.openAIInit "m" [] [] tt tt)) 1000 = inr ro
  /\ Llm.ok ro = true
  /\ Llm.fetchWithTimeout (fl "u" (Llm.ollamaInit "m" [] [] tt tt)) 1000 = inr rl
  /\ Llm.ok rl = true
  /\ (forall e, Llm.json ro = inl e -> Llm.parserError e)
  /\ (forall e, Llm.json rl = inl e -> Llm.parserError e)
  /\ Llm.callOpenAIEndpoint fo "u" "m" [] [] tt tt 1000 = inr "hi"
  /\ exists e, Llm.callOllamaEndpoint fl "u" "m" [] [] tt tt 1000 = inl e
               /\ Llm.EmptyResponseError e.
Proof.
  intros bo bl ro rl fo fl.
  assert (HpO : forall e, Llm.json ro = inl e -> Llm.parserError e)
    by (intros e H; discriminate H).
  assert (HpL : forall e, Llm.json rl = inl e -> Llm.parserError e)
    by (intros e H; discriminate H).
  pose proof (empty_response_exactly_without_content "u" "m" [] [] tt tt 1000
                fo fl ro rl eq_refl eq_refl eq_refl eq_refl HpO HpL)
    as (_ & Hreply & _ & _ & Hmissing & _).
  do 4 (split; [reflexivity|]).
  split; [exact HpO|]. split; [exact HpL|].
  split.
  - exact (Hreply bo _ [] _ "  hi  " eq_refl eq_refl eq_refl eq_refl eq_refl).
  - exact (Hmissing bl eq_refl I).
Defined.

(** C5 as stated fails for a success-status response whose body does not
    parse: the response carries no usable content, and the call fails with
    the error of the parser, not with an empty-response error. *)
Lemma unparsed_body_is_not_empty_response :
  let syntaxError := Js.mkError "SyntaxError" "Unexpected token < in JSON at position 0" in
  let r : Llm.Response Llm.ResponseOpenAI :=
    Llm.mkResponse true 200%N "OK" "<html>" (inl syntaxError) in
  let fo : Llm.Fetch unit Llm.ResponseOpenAI := fun _ _ => Llm.RespondsAfter 10 r in
  Llm.fetchWithTimeout (fo "u" (Llm.openAIInit "m" [] [] tt tt)) 1000 = inr r
  /\ Llm.ok r = true
  /\ Llm.usableContent (Llm.contentOpenAI r) = false
  /\ Llm.callOpenAIEndpoint fo "u" "m" [] [] tt tt 1000 = inl syntaxError
  /\ ~ (exists e, Llm.callOpenAIEndpoint fo "u" "m" [] [] tt tt 1000 = inl e
                  /\ Llm.EmptyResponseError e).
Proof.
  intros syntaxError r fo. do 4 (split; [reflexivity|]).
  intros (e & He & Hempty).
  assert (Heq : e = syntaxError) by (vm_compute in He; now injection He as <-).
  rewrite Heq in Hempty. destruct Hempty as [H | [H | H]]; discriminate H.
Qed.

(** A content of white space only passes the test for a missing content and
    is answered by the empty string. *)
Lemma blank_content_is_answered_by_the_empty_string :
  let body := Llm.mkResponseOpenAI
                (Some [Llm.mkChoice (Some (Llm.mkResponseMessage (Some "   ")))]) in
  let r := Llm.mkResponse true 200%N "OK" "" (inr body) in
  let fo : Llm.Fetch unit Llm.ResponseOpenAI := fun _ _ => Llm.RespondsAfter 10 r in
  Llm.usableContent (Llm.contentOpenAI r) = false
  /\ Llm.callOpenAIEndpoint fo "u" "m" [] [] tt tt 1000 = inr "".
Proof. split; reflexivity. Qed.

Lemma timeout_reported_in_seconds_witness :
  let fo : Llm.Fetch unit Llm.ResponseOpenAI := fun _ _ => Llm.NeverResponds in
  let fl : Llm.Fetch unit Llm.ResponseOllama := fun _ _ => Llm.NeverResponds in
  0 < 120000 < 10 ^ 15
  /\ Llm.noResponseWithin (fo "u" (Llm.openAIInit "m" [] [] tt tt)) 120000
  /\ Llm.noResponseWithin (fl "u" (Llm.ollamaInit "m" [] [] tt tt)) 120000
  /\ Llm.callOpenAIEndpoint fo "u" "m" [] [] tt tt 120000
     = inl (Js.newError "Request timed out after 120 seconds")
  /\ Llm.callOllamaEndpoint fl "u" "m" [] [] tt tt 120000
     = inl (Js.newError "Request timed out after 120 seconds").
Proof.
  intros fo fl.
  assert (Hrange : 0 < 120000 < 10 ^ 15) by (split; reflexivity).
  pose proof (timeout_reported_in_seconds "u" "m" [] [] tt tt 120000 fo fl Hrange I I)
    as (HO & HL & _).
  split; [exact Hrange|].
  split; [exact I|]. split; [exact I|]. split; [exact HO | exact HL].
Defined.

(** C9 as stated fails at a timeout of 1500 ms: the server never answers, the
    call fails with [Request timed out after 1.5 seconds], and that message
    does not give a whole number of seconds. *)
Lemma timeout_1500_not_in_whole_seconds :
  let fo : Llm.Fetch unit Llm.ResponseOpenAI := fun _ _ => Llm.NeverResponds in
  Llm.noResponseWithin (fo "u" (Llm.openAIInit "m" [] [] tt tt)) 1500
  /\ Llm.callOpenAIEndpoint fo "u" "m" [] [] tt tt 1500
     = inl (Js.newError "Request timed out after 1.5 seconds")
  /\ ~ (exists e, Llm.callOpenAIEndpoint fo "u" "m" [] [] tt tt 1500 = inl e
                  /\ Llm.TimeoutErrorInWholeSeconds e).
Proof.
  intros fo. split; [exact I|]. split; [reflexivity|].
  intros (e & He & secs & Hwhole & Hmsg).
  assert (Heq : e = Js.newError "Request timed out after 1.5 seconds")
    by (vm_compute in He; now injection He as <-).
  rewrite Hmsg in Heq. injection Heq as Heq.
  destruct secs as [|c1 [|c2 secs]]; simpl in Heq; try discriminate Heq.
  injection Heq as -> -> _. vm_compute in Hwhole. discriminate Hwhole.
Qed.

(* ------------------------------------------------------------------------- *)
(** ** Suggestion extraction *)

Section FenceFacts.

Import RegExp ChatPanel.

Lemma exec_unfold (re : list Atom) (s : string) :
  exec re s =
    match matchHere re [] s with
    | Some m => Some m
    | None =>
        match s with
        | String _ s' => exec re s'
        | EmptyString => None
        end
    end.
Proof. destruct s; reflexivity. Qed.

Lemma matchHere_literal (l : string) (re : list Atom) (captured : list string) (s : string) :
  matchHere (Literal l :: re) captured s =
    match stripPrefix l s with
    | Some s' => matchHere re captured s'
    | None => None
    end.
Proof. reflexivity. Qed.

Lemma stripPrefix_length (l s s' : string) :
  stripPrefix l s = Some s' -> (String.length s' + String.length l = String.length s)%nat.
Proof.
  revert s. induction l as [|a l IH]; intros s H; simpl in *.
  - injection H as ->. lia.
  - destruct s as [|b s]; [discriminate|].
    destruct (Ascii.eqb a b); [|discriminate].
    apply IH in H. simpl. lia.
Qed.

(** *** Every match ends within its input *)

Section RestBound.

Context (class : ascii -> bool) (k : string -> string -> option Match).

Hypothesis k_bound :
  forall taken s m, k taken s = Some m -> (String.length (rest m) <= String.length s)%nat.

Lemma greedyStar_bound (s taken : string) (m : Match) :
  greedyStar class k taken s = Some m -> (String.length (rest m) <= String.length s)%nat.
Proof.
  revert taken. induction s as [|c s IH]; intros taken H; simpl in H.
  - now apply k_bound in H.
  - destruct (class c).
    + destruct (greedyStar class k (taken ++ Js.chr c) s) eqn:E.
      * injection H as ->. apply IH in E. simpl. lia.
      * now apply k_bound in H.
    + now apply k_bound in H.
Qed.

Lemma greedyPlus_bound (s : string) (m : Match) :
  greedyPlus class k s = Some m -> (String.length (rest m) <= String.length s)%nat.
Proof.
  destruct s as [|c s]; simpl; [discriminate|].
  destruct (class c); [|discriminate].
  intros H. apply greedyStar_bound in H. lia.
Qed.

Lemma lazyStar_bound (s taken : string) (m : Match) :
  lazyStar class k taken s = Some m -> (String.length (rest m) <= String.length s)%nat.
Proof.
  revert taken. induction s as [|c s IH]; intros taken H; simpl in H.
  - destruct (k taken "") eqn:E; [|discriminate].
    injection H as ->. now apply k_bound in E.
  - destruct (k taken (String c s)) eqn:E.
    + injection H as ->. now apply k_bound in E.
    + destruct (class c); [|discriminate]. apply IH in H. simpl. lia.
Qed.

End RestBound.

Lemma matchHere_bound (re : list Atom) (captured : list string) (s : string) (m : Match) :
  matchHere re captured s = Some m -> (String.length (rest m) <= String.length s)%nat.
Proof.
  revert captured s m. induction re as [|a re IH]; intros captured s m H.
  - injection H as <-. simpl. lia.
  - destruct a as [l | q class capturing].
    + rewrite matchHere_literal in H.
      destruct (stripPrefix l s) as [s'|] eqn:E; [|discriminate].
      apply stripPrefix_length in E. apply IH in H. lia.
    + cbn [matchHere] in H. destruct q.
      * apply greedyPlus_bound in H; [exact H|]. intros taken s' m'. apply IH.
      * apply lazyStar_bound in H; [exact H|]. intros taken s' m'. apply IH.
Qed.

(** A match of the fence pattern consumes at least its seven opening
    characters. *)
Lemma fence_match_consumes (captured : list string) (s : string) (m : Match) :
  matchHere fenceRegex captured s = Some m -> (String.length (rest m) < String.length s)%nat.
Proof.
  unfold fenceRegex. rewrite matchHere_literal.
  destruct (stripPrefix "```file" s) as [s'|] eqn:E; [|discriminate].
  intros H. apply matchHere_bound in H. apply stripPrefix_length in E.
  simpl in E. lia.
Qed.

Lemma exec_fence_consumes (s : string) (m : Match) :
  exec fenceRegex s = Some m -> (String.length (rest m) < String.length s)%nat.
Proof.
  induction s as [|c s IH]; rewrite exec_unfold.
  - destruct (matchHere fenceRegex [] "") eqn:E; [|discriminate].
    intros H. injection H as ->. now apply fence_match_consumes in E.
  - destruct (matchHere fenceRegex [] (String c s)) eqn:E.
    + intros H. injection H as ->. now apply fence_match_consumes in E.
    + intros H. apply IH in H. simpl. lia.
Qed.

Lemma fenceLoop_unfold (fuel : nat) (text : string) :
  fenceLoop (S fuel) text =
    match exec fenceRegex text with
    | None => []
    | Some m =>
        match nth_error (groups m) 0, nth_error (groups m) 1 with
        | Some path, Some content =>
            if Js.truthy path
            then File.mk (Js.trim path) content :: fenceLoop fuel (rest m)
            else fenceLoop fuel (rest m)
        | _, _ => fenceLoop fuel (rest m)
        end
    end.
Proof. reflexivity. Qed.

(** The loop of [extractAllFileFences] never stops for lack of fuel: any
    fuel above the length of the text gives the same suggestions. *)
Lemma fenceLoop_fuel_irrelevant (fuel fuel' : nat) (text : string) :
  (String.length text < fuel)%nat -> (String.length text < fuel')%nat ->
  fenceLoop fuel text = fenceLoop fuel' text.
Proof.
  revert fuel' text. induction fuel as [|fuel IH]; intros fuel' text H H'; [lia|].
  destruct fuel' as [|fuel']; [lia|].
  rewrite !fenceLoop_unfold.
  destruct (exec fenceRegex text) as [m|] eqn:E; [|reflexivity].
  apply exec_fence_consumes in E.
  rewrite (IH fuel' (rest m)) by lia. reflexivity.
Qed.

(** *** Text without backticks holds no fence *)

Lemma stripPrefix_first_differs (a c : ascii) (l s : string) :
  Ascii.eqb a c = false -> stripPrefix (String a l) (String c s) = None.
Proof. intros H. simpl. now rewrite H. Qed.

Lemma fence_needs_backtick (c : ascii) (s : string) (captured : list string) :
  Ascii.eqb c Js.backtick = false -> matchHere fenceRegex captured (String c s) = None.
Proof.
  intros H. unfold fenceRegex. rewrite matchHere_literal.
  change "```file" with (String Js.backtick "``file").
  rewrite stripPrefix_first_differs; [reflexivity|].
  now rewrite Ascii.eqb_sym.
Qed.

Lemma noBacktick_cons (c : ascii) (s : string) :
  noBacktick (String c s) = true -> Ascii.eqb c Js.backtick = false /\ noBacktick s = true.
Proof.
  unfold noBacktick. simpl. destruct (Ascii.eqb c Js.backtick); simpl; [discriminate|].
  now intros H.
Qed.

Lemma exec_plain_text (s : string) : noBacktick s = true -> exec fenceRegex s = None.
Proof.
  induction s as [|c s IH]; intros H; [reflexivity|].
  apply noBacktick_cons in H. destruct H as [Hc Hs].
  rewrite exec_unfold, (fence_needs_backtick _ _ _ Hc). now apply IH.
Qed.

Lemma exec_skips_plain_text (before s : string) :
  noBacktick before = true -> exec fenceRegex (before ++ s) = exec fenceRegex s.
Proof.
  induction before as [|c before IH]; intros H; [reflexivity|].
  apply noBacktick_cons in H. destruct H as [Hc Hs].
  change (String c before ++ s) with (String c (before ++ s)).
  rewrite exec_unfold, (fence_needs_backtick _ _ _ Hc). now apply IH.
Qed.

Lemma fenceLoop_plain_text (fuel : nat) (s : string) :
  noBacktick s = true -> fenceLoop fuel s = [].
Proof.
  intros H. destruct fuel as [|fuel]; [reflexivity|].
  now rewrite fenceLoop_unfold, exec_plain_text.
Qed.

(** The pattern matches at the fence, captures the path and the content, and
    stops right behind the closing backticks. *)
Lemma fence_matches (after : string) :
  matchHere fenceRegex [] (fence "a/b.txt" helloWorld ++ after)
  = Some (mkMatch ["a/b.txt"; helloWorld] after).
Proof. reflexivity. Qed.

(** C6: a text that holds the fence with path [a/b.txt] and content
    [hello<newline>world], and no backtick elsewhere, yields exactly one
    suggestion, with that path and that content, verbatim. *)
Theorem extract_single_fence (before after : string) :
  noBacktick before = true ->
  noBacktick after = true ->
  extractAllFileFences (before ++ fence "a/b.txt" helloWorld ++ after)
  = [File.mk "a/b.txt" helloWorld].
Proof.
  intros Hbefore Hafter. unfold extractAllFileFences.
  rewrite fenceLoop_unfold, (exec_skips_plain_text _ _ Hbefore), exec_unfold, fence_matches.
  cbn [groups rest nth_error]. change (Js.truthy "a/b.txt") with true. cbv iota.
  rewrite (fenceLoop_plain_text _ _ Hafter). reflexivity.
Qed.

End FenceFacts.

Lemma extract_single_fence_witness :
  ChatPanel.noBacktick "Here is the file: " = true
  /\ ChatPanel.noBacktick " (done)" = true
  /\ ChatPanel.extractAllFileFences
       ("Here is the file: " ++ ChatPanel.fence "a/b.txt" ChatPanel.helloWorld ++ " (done)")
     = [File.mk "a/b.txt" ChatPanel.helloWorld].
Proof.
  split; [reflexivity|]. split; [reflexivity|].
  apply (extract_single_fence "Here is the file: " " (done)"); reflexivity.
Defined.

(** C7: a fence whose quoted path is one space is a match with a non-empty
    path, so it is not skipped; the suggestion it yields carries the trimmed
    path, which is empty.  (A fence with nothing between the quotes is no match
    at all, and a fence with an empty content block yields a suggestion with
    empty content.) *)
Theorem blank_path_is_not_skipped :
  ChatPanel.extractAllFileFences (ChatPanel.fence " " "x") = [File.mk "" "x"]
  /\ ChatPanel.extractAllFileFences (ChatPanel.fence "" "x") = []
  /\ ChatPanel.extractAllFileFences (ChatPanel.fence "a.txt" "") = [File.mk "a.txt" ""].
Proof. split; [|split]; reflexivity. Qed.

(* ------------------------------------------------------------------------- *)
(** ** The conversation handler *)

Section HandlerFacts.

Import ChatPanel.

Context {Num : Type}.

Variable config : LLMConfig Num.
Variable callLLM : LLMCallOptions Num -> Js.Error + string.
Variable handleCommand : string -> Panel -> Panel.

(** The options [onUserMessage] passes to the model call for a history. *)
Local Abbreviation optionsFor history :=
  (mkOptions (apiUrl config) (model config) (token config) history
     (temperature config) (maxTokens config) (requestTimeout config)).

Local Abbreviation trimmed history :=
  (Utils.trimMessageHistory Utils.chatRole history (maxHistoryMessages config)).

Lemma systems_before_user_turn (history : list ChatMessage) (turn : string) :
  filter (Utils.isSystem Utils.chatRole) (history ++ [msg user turn])
  = filter (Utils.isSystem Utils.chatRole) history.
Proof. rewrite filter_app. simpl. apply app_nil_r. Qed.

Lemma others_with_user_turn (history : list ChatMessage) (turn : string) :
  filter (Utils.notSystem Utils.chatRole) (history ++ [msg user turn])
  = (filter (Utils.notSystem Utils.chatRole) history ++ [msg user turn])%list.
Proof. now rewrite filter_app. Qed.

Lemma lastn_keeps_last {A : Type} (n : nat) (l : list A) (x : A) :
  (0 < n)%nat -> exists earlier, Utils.lastn n (l ++ [x]) = (earlier ++ [x])%list.
Proof.
  intros Hn. unfold Utils.lastn. rewrite skipn_app, length_app. simpl.
  replace (List.length l + 1 - n - List.length l)%nat with 0%nat by lia.
  now exists (skipn (List.length l + 1 - n) l).
Qed.

(** The user's turn stays the last entry when the bound exceeds the number of
    system messages. *)
Lemma trimmed_ends_with_turn (history : list ChatMessage) (turn : string) :
  Z.of_nat (List.length (filter (Utils.isSystem Utils.chatRole) history))
    < maxHistoryMessages config ->
  exists earlier, trimmed (history ++ [msg user turn]) = (earlier ++ [msg user turn])%list.
Proof.
  intros Hs.
  rewrite trim_meets_contract by (now rewrite systems_before_user_turn).
  unfold Utils.trimContract.
  destruct (Z.of_nat (List.length (history ++ [msg user turn])) <=? maxHistoryMessages config).
  - now exists history.
  - rewrite systems_before_user_turn, others_with_user_turn.
    destruct (lastn_keeps_last
                (Z.to_nat (maxHistoryMessages config
                           - Z.of_nat (List.length
                                         (filter (Utils.isSystem Utils.chatRole) history))))
                (filter (Utils.notSystem Utils.chatRole) history) (msg user turn))
      as [earlier ->]; [lia|].
    exists (filter (Utils.isSystem Utils.chatRole) history ++ earlier)%list.
    now rewrite app_assoc.
Qed.

(** C4, as the code has it: when the model call raises an error, the handler
    catches it and reports it, as an error notification and as a [chat:error]
    message to the webview; the history is left as it was sent to the model,
    that is the previous history with the user's turn, trimmed to the bound,
    and no assistant entry is added.  Within the bound this is the previous
    history followed by the user's turn, and the user's turn is the last entry
    whenever the bound exceeds the number of system messages. *)
Theorem failed_call_reported_history_as_sent (text : string) (p : Panel) (error : Js.Error) :
  Js.truthy (Js.trim text) = true ->
  Js.startsWith (Js.trim text) "/" = false ->
  callLLM (optionsFor (trimmed (messages p ++ [msg user (Js.trim text)]))) = inl error ->
  let p' := onUserMessage config callLLM handleCommand text p in
  messages p' = trimmed (messages p ++ [msg user (Js.trim text)])
  /\ posted p' = (posted p ++ [ChatError (Js.message error)])%list
  /\ errorsShown p' = (errorsShown p ++ [("LLM Error: " ++ Js.message error)%string])%list
  /\ (Z.of_nat (List.length (messages p)) < maxHistoryMessages config ->
      messages p' = (messages p ++ [msg user (Js.trim text)])%list)
  /\ (Z.of_nat (List.length (filter (Utils.isSystem Utils.chatRole) (messages p)))
        < maxHistoryMessages config ->
      exists earlier, messages p' = (earlier ++ [msg user (Js.trim text)])%list).
Proof.
  intros Htext Hcommand Hcall p'.
  assert (Hp' : p' = post (ChatError (Js.message error))
                       (showErrorMessage ("LLM Error: " ++ Js.message error)
                          (setMessages (trimmed (messages p ++ [msg user (Js.trim text)]))
                             (push (msg user (Js.trim text)) p)))).
  { unfold p', onUserMessage. rewrite Htext, Hcommand. simpl.
    unfold msg in Hcall. now rewrite Hcall. }
  rewrite Hp'. simpl. repeat split.
  - intros Hlen. apply trim_within_bound. rewrite length_app. simpl. lia.
  - apply trimmed_ends_with_turn.
Qed.

End HandlerFacts.

(** A model call that fails whatever it is asked. *)
Lemma failed_call_reported_history_as_sent_witness :
  let config := ChatPanel.mkConfig "http://localhost:11434/v1/chat/completions" "ollama"
                  "llama3.2" tt tt 50 120000 in
  let callLLM : ChatPanel.LLMCallOptions unit -> Js.Error + string :=
    fun _ => inl (Js.newError "LLM API error (500): down") in
  let p := ChatPanel.mkPanel [msg system "S"] [] [] in
  let p' := ChatPanel.onUserMessage config callLLM (fun _ q => q) " hi " p in
  Js.truthy (Js.trim " hi ") = true
  /\ Js.startsWith (Js.trim " hi ") "/" = false
  /\ ChatPanel.messages p' = [msg system "S"; msg user "hi"]
  /\ ChatPanel.posted p' = [ChatPanel.ChatError "LLM API error (500): down"].
Proof.
  intros config callLLM p p'.
  pose proof (failed_call_reported_history_as_sent config callLLM (fun _ q => q) " hi " p
                (Js.newError "LLM API error (500): down") eq_refl eq_refl eq_refl)
    as (Hmessages & Hposted & _).
  split; [reflexivity|]. split; [reflexivity|].
  split; [exact Hmessages | exact Hposted].
Defined.

(** C4 as stated fails when the conversation is at the bound: with a bound of
    three messages and the history [system S; user u1; assistant a1], the turn
    [u2] makes the handler trim before it calls the model; the call fails and
    the history is [system S; assistant a1; user u2], not the previous history
    followed by the user's turn. *)
Lemma failed_call_after_trimming_drops_old_turn :
  let config := ChatPanel.mkConfig "http://localhost:11434/v1/chat/completions" "ollama"
                  "llama3.2" tt tt 3 120000 in
  let callLLM : ChatPanel.LLMCallOptions unit -> Js.Error + string :=
    fun _ => inl (Js.newError "LLM API error (500): down") in
  let p := ChatPanel.mkPanel [msg system "S"; msg user "u1"; msg assistant "a1"] [] [] in
  let p' := ChatPanel.onUserMessage config callLLM (fun _ q => q) "u2" p in
  ChatPanel.messages p' = [msg system "S"; msg assistant "a1"; msg user "u2"]
  /\ ChatPanel.messages p' <> (ChatPanel.messages p ++ [msg user "u2"])%list.
Proof.
  cbv zeta. split; [reflexivity|]. vm_compute. discriminate.
Qed.

(* ========================================================================= *)
(** * Further properties of the code *)

(* ------------------------------------------------------------------------- *)
(** ** History trimming, for every bound *)

Section HistoryMore.

Import Utils.

Context {T : Type} (roleOf : T -> string).

Local Abbreviation isSys := (isSystem roleOf).
Local Abbreviation notSys := (notSystem roleOf).
Local Abbreviation trim := (trimMessageHistory roleOf).

Lemma slice_is_suffix {A : Type} (l : list A) (start : Z) :
  exists dropped, l = (dropped ++ Js.slice l start)%list.
Proof.
  unfold Js.slice.
  set (k := Z.to_nat _). exists (firstn k l). symmetry. apply firstn_skipn.
Qed.

Lemma trim_partition (messages : list T) (maxMessages : Z) :
  filter isSys (trim messages maxMessages) = filter isSys messages
  /\ exists dropped,
       filter notSys messages
       = (dropped ++ filter notSys (trim messages maxMessages))%list.
Proof.
  destruct (Z.le_gt_cases (Z.of_nat (List.length messages)) maxMessages) as [Hle|Hgt].
  - rewrite trim_within_bound by exact Hle. split; [reflexivity|]. now exists [].
  - rewrite trim_beyond_bound by lia.
    set (start := - maxMessages + _).
    destruct (slice_is_suffix (filter notSys messages) start) as [dropped Hd].
    assert (Hall : forallb notSys (Js.slice (filter notSys messages) start) = true).
    { rewrite forallb_forall. intros x Hx.
      assert (Hin : In x (filter notSys messages))
        by (rewrite Hd; apply in_or_app; now right).
      apply filter_In in Hin. tauto. }
    assert (Hnone : filter isSys (Js.slice (filter notSys messages) start) = []).
    { unfold Js.slice. apply (filter_skipn_none isSys isSys).
      apply filter_system_other. }
    rewrite !filter_app, filter_system_system, filter_other_system, Hnone, app_nil_r.
    split; [reflexivity|]. exists dropped. simpl.
    rewrite (forallb_filter_id _ _ Hall). exact Hd.
Qed.

(** Whatever the bound, trimming keeps every system message, in order, and
    the non-system messages that survive are the most recent ones: what is
    dropped is a prefix of the non-system messages. *)
Theorem trim_drops_only_oldest_others (messages : list T) (maxMessages : Z) :
  filter isSys (trim messages maxMessages) = filter isSys messages
  /\ exists dropped,
       filter notSys messages
       = (dropped ++ filter notSys (trim messages maxMessages))%list.
Proof. apply trim_partition. Qed.

Lemma trim_length_min (messages : list T) (maxMessages : Z) :
  Z.of_nat (List.length (filter isSys messages)) < maxMessages ->
  Z.of_nat (List.length (trim messages maxMessages))
  = Z.min (Z.of_nat (List.length messages)) maxMessages.
Proof.
  intros Hs.
  destruct (Z.le_gt_cases (Z.of_nat (List.length messages)) maxMessages) as [Hle|Hgt].
  - rewrite trim_within_bound by exact Hle. lia.
  - rewrite trim_length_beyond by lia. lia.
Qed.

(** With fewer system messages than the bound, the result has the length of
    the conversation or of the bound, whichever is smaller. *)
Theorem trim_length (messages : list T) (maxMessages : Z) :
  Z.of_nat (List.length (filter isSys messages)) < maxMessages ->
  Z.of_nat (List.length (trim messages maxMessages))
  = Z.min (Z.of_nat (List.length messages)) maxMessages.
Proof. apply trim_length_min. Qed.

(** With system messages that do not outnumber the bound, trimming a trimmed
    conversation again changes nothing. *)
Theorem trim_twice_is_once_when_few_system (messages : list T) (n : Z) :
  Z.of_nat (List.length (filter isSys messages)) <= n ->
  trim (trim messages n) n = trim messages n.
Proof. apply trim_idempotent_few_system. Qed.

(** With fewer system messages than the bound, the result is the contract's:
    the conversation itself when it is within the bound, and otherwise the
    system messages followed by the most recent [maxMessages - systemCount]
    of the others. *)
Theorem trim_follows_contract_below_bound (messages : list T) (maxMessages : Z) :
  Z.of_nat (List.length (filter isSys messages)) < maxMessages ->
  trim messages maxMessages = trimContract roleOf messages maxMessages.
Proof. apply trim_meets_contract. Qed.

End HistoryMore.

Lemma trim_length_witness :
  Z.of_nat
    (List.length
       (filter (Utils.isSystem Utils.chatRole)
          [msg system "S"; msg user "a"; msg assistant "b"; msg user "c"])) < 3
  /\ Z.of_nat
       (List.length
          (Utils.trimMessageHistory Utils.chatRole
             [msg system "S"; msg user "a"; msg assistant "b"; msg user "c"] 3))
     = 3.
Proof.
  split; [simpl; lia|].
  apply (trim_length Utils.chatRole
           [msg system "S"; msg user "a"; msg assistant "b"; msg user "c"] 3).
  simpl; lia.
Defined.

Lemma trim_twice_is_once_when_few_system_witness :
  Z.of_nat
    (List.length
       (filter (Utils.isSystem Utils.chatRole)
          [msg system "S"; msg user "a"; msg assistant "b"; msg user "c"])) <= 2
  /\ Utils.trimMessageHistory Utils.chatRole
       (Utils.trimMessageHistory Utils.chatRole
          [msg system "S"; msg user "a"; msg assistant "b"; msg user "c"] 2) 2
     = [msg system "S"; msg user "c"].
Proof.
  split; [simpl; lia|].
  rewrite (trim_twice_is_once_when_few_system Utils.chatRole
             [msg system "S"; msg user "a"; msg assistant "b"; msg user "c"] 2)
    by (simpl; lia).
  reflexivity.
Defined.

Lemma trim_follows_contract_below_bound_witness :
  Z.of_nat
    (List.length
       (filter (Utils.isSystem Utils.chatRole)
          [msg user "a"; msg system "S"; msg assistant "b"; msg user "c"])) < 3
  /\ Utils.trimMessageHistory Utils.chatRole
       [msg user "a"; msg system "S"; msg assistant "b"; msg user "c"] 3
     = [msg system "S"; msg assistant "b"; msg user "c"].
Proof.
  split; [simpl; lia|].
  rewrite (trim_follows_contract_below_bound Utils.chatRole
             [msg user "a"; msg system "S"; msg assistant "b"; msg user "c"] 3)
    by (simpl; lia).
  reflexivity.
Defined.

(* ------------------------------------------------------------------------- *)
(** ** Path validation, in general *)

Section PathMore.

Import Utils.

Lemma trimStart_white (s : string) : Js.allChars Js.isWhiteSpace s = true -> Js.trimStart s = "".
Proof.
  induction s as [|c s IH]; simpl; [reflexivity|].
  destruct (Js.isWhiteSpace c); simpl; [exact IH | discriminate].
Qed.

Lemma trim_white (s : string) : Js.allChars Js.isWhiteSpace s = true -> Js.trim s = "".
Proof. intros H. unfold Js.trim. now rewrite trimStart_white. Qed.

Lemma blank_white (s : string) : Js.allChars Js.isWhiteSpace s = true -> Js.blank s = true.
Proof.
  intros H. unfold Js.blank. rewrite trim_white by exact H. simpl. apply orb_true_r.
Qed.

(** An empty path and a path of white space only are rejected as empty, on
    every host. *)
Theorem blank_path_rejected (h : Path.Host) (relPath : string) :
  Js.allChars Js.isWhiteSpace relPath = true ->
  validateRelativePath h relPath = inl (Js.newError "Path cannot be empty").
Proof.
  intros H. unfold validateRelativePath. rewrite trim_white by exact H.
  simpl. now rewrite orb_true_r.
Qed.

(** Once the first segment is [..], it stays the first segment. *)
Lemma pushSegment_keeps_climb (res : list string) (seg : string) :
  hd_error res = Some ".." -> hd_error (Path.pushSegment true res seg) = Some "..".
Proof.
  intros H. destruct res as [|r t]; [discriminate|]. injection H as ->.
  unfold Path.pushSegment.
  destruct (Js.isEmpty seg || (seg =? ".")%string); [reflexivity|].
  destruct (seg =? "..")%string; [|reflexivity].
  simpl List.rev. destruct (List.rev t) as [|x xs] eqn:E; simpl.
  - reflexivity.
  - destruct (x =? "..")%string; [reflexivity|].
    rewrite rev_app_distr. reflexivity.
Qed.

Lemma fold_keeps_climb (segs : list string) (res : list string) :
  hd_error res = Some ".." ->
  hd_error (fold_left (Path.pushSegment true) segs res) = Some "..".
Proof.
  revert res. induction segs as [|seg segs IH]; intros res H; [exact H|].
  simpl. apply IH. now apply pushSegment_keeps_climb.
Qed.

Lemma concat_climb (parts : list string) :
  hd_error parts = Some ".." ->
  exists more, String.concat "/" parts = String "." (String "." more).
Proof.
  destruct parts as [|p [|q t]]; [discriminate| |]; intros H; injection H as ->.
  - now exists "".
  - simpl. now eexists.
Qed.

Lemma posixNormalize_climb (others : string) :
  exists more, Path.posixNormalize ("../" ++ others) = String "." (String "." more).
Proof.
  unfold Path.posixNormalize, Path.normalizeString.
  change (Js.isEmpty ("../" ++ others)) with false.
  change (Js.startsWith ("../" ++ others) "/") with false.
  cbv iota zeta. change (negb false) with true.
  change (Path.segments Path.isPosixPathSeparator ("../" ++ others) "")
    with (".." :: Path.segments Path.isPosixPathSeparator others "").
  destruct (concat_climb
              (fold_left (Path.pushSegment true)
                 (".." :: Path.segments Path.isPosixPathSeparator others "") []))
    as [more Hmore].
  { simpl fold_left. now apply fold_keeps_climb. }
  rewrite Hmore. simpl Js.isEmpty. cbv iota.
  destruct (Path.endsWithSeparator Path.isPosixPathSeparator ("../" ++ others));
    simpl; now eexists.
Qed.

Lemma startsWith_slash (s : string) : Js.startsWith (String "/" s) "/" = true.
Proof. unfold Js.startsWith. simpl. now destruct s. Qed.

Lemma includes_climb (more : string) : Js.includes (String "." (String "." more)) ".." = true.
Proof. simpl. now destruct more. Qed.

Lemma posixNormalize_rooted (others : string) :
  exists more, Path.posixNormalize ("/" ++ others) = String "/" more.
Proof.
  unfold Path.posixNormalize.
  change (Js.isEmpty ("/" ++ others)) with false.
  change ("/" ++ others) with (String "/" others).
  rewrite startsWith_slash.
  cbv iota zeta.
  destruct (Js.isEmpty _); [now exists ""|].
  destruct (Path.endsWithSeparator _ _); simpl; now eexists.
Qed.

Lemma not_blank_visible (c : ascii) (s : string) :
  Js.isWhiteSpace c = false -> Js.blank (String c s) = false.
Proof.
  intros H. unfold Js.blank, Js.trim. simpl. rewrite H. simpl. rewrite H. reflexivity.
Qed.

(** On the POSIX host every path that begins at the root and every path that
    begins by climbing out with [../] is rejected, whatever follows. *)
Theorem posix_rejects_rooted_and_climbing (others : string) :
  validateRelativePath Path.posix ("/" ++ others)
  = inl (Js.newError "Absolute paths are not allowed")
  /\ validateRelativePath Path.posix ("../" ++ others)
     = inl (Js.newError "Path traversal (..) is not allowed").
Proof.
  split.
  - unfold validateRelativePath.
    change (negb (Js.truthy ("/" ++ others))
            || (String.length (Js.trim ("/" ++ others)) =? 0)%nat)
      with (Js.blank (String "/" others)).
    rewrite not_blank_visible by reflexivity. cbv zeta.
    destruct (posixNormalize_rooted others) as [more Hn].
    change (Path.normalize Path.posix) with Path.posixNormalize.
    change (Path.isAbsolute Path.posix) with Path.posixIsAbsolute.
    rewrite Hn.
    unfold Path.posixIsAbsolute. now rewrite startsWith_slash.
  - unfold validateRelativePath.
    change (negb (Js.truthy ("../" ++ others))
            || (String.length (Js.trim ("../" ++ others)) =? 0)%nat)
      with (Js.blank (String "." ("./" ++ others))).
    rewrite not_blank_visible by reflexivity. cbv zeta.
    destruct (posixNormalize_climb others) as [more Hn].
    change (Path.normalize Path.posix) with Path.posixNormalize.
    change (Path.isAbsolute Path.posix) with Path.posixIsAbsolute.
    rewrite Hn.
    change (Path.posixIsAbsolute (String "." (String "." more))) with false.
    cbv iota. now rewrite includes_climb.
Qed.

(** On a Windows host a path that holds one of the characters [<], [>], [:],
    double quote, [|], [?], [*] is rejected; so is a drive-relative path such
    as [C:x], which is not absolute. *)
Theorem win32_rejects_suspicious_characters (h : Path.Host) (relPath : string) :
  Path.platform h = "win32" ->
  Js.anyChar isSuspiciousChar relPath = true ->
  throws (validateRelativePath h relPath).
Proof.
  intros Hp Hc. unfold validateRelativePath. rewrite Hp, Hc.
  change (("win32" =? "win32")%string && true) with true. cbv zeta.
  repeat match goal with
         | |- throws (if ?c then _ else _) => destruct c; [apply throws_inl|]
         end.
  apply throws_inl.
Qed.

End PathMore.

Lemma blank_path_rejected_witness :
  Js.allChars Js.isWhiteSpace "   " = true
  /\ Utils.validateRelativePath Path.win32 "   " = inl (Js.newError "Path cannot be empty").
Proof.
  split; [reflexivity|]. apply (blank_path_rejected Path.win32 "   "). reflexivity.
Defined.

Lemma win32_rejects_suspicious_characters_witness :
  Path.platform Path.win32 = "win32"
  /\ Js.anyChar Utils.isSuspiciousChar "C:notes.txt" = true
  /\ Path.isAbsolute Path.win32 (Path.normalize Path.win32 "C:notes.txt") = false
  /\ Utils.throws (Utils.validateRelativePath Path.win32 "C:notes.txt").
Proof.
  split; [reflexivity|]. split; [reflexivity|]. split; [reflexivity|].
  apply (win32_rejects_suspicious_characters Path.win32 "C:notes.txt"); reflexivity.
Defined.

(* ------------------------------------------------------------------------- *)
(** ** escapeHtml and validateFileContent *)

Section TextFacts.

Import Utils Vocabulary.

Lemma anyChar_append (p : ascii -> bool) (a b : string) :
  Js.anyChar p (a ++ b) = Js.anyChar p a || Js.anyChar p b.
Proof.
  induction a as [|c a IH]; simpl; [reflexivity|].
  rewrite IH. apply orb_assoc.
Qed.

(** The six ways of [escapeChar]. *)
Lemma escapeChar_cases (c : ascii) :
  (c = "&"%char /\ escapeChar c = "&amp;")
  \/ (c = "<"%char /\ escapeChar c = "&lt;")
  \/ (c = ">"%char /\ escapeChar c = "&gt;")
  \/ (c = Js.dquote /\ escapeChar c = "&quot;")
  \/ (c = "'"%char /\ escapeChar c = "&#039;")
  \/ (isEscaped c = false /\ escapeChar c = Js.chr c).
Proof.
  unfold escapeChar, isEscaped.
  destruct (Ascii.eqb_spec c "&"); [now left|]. right.
  destruct (Ascii.eqb_spec c "<"); [now left|]. right.
  destruct (Ascii.eqb_spec c ">"); [now left|]. right.
  destruct (Ascii.eqb_spec c Js.dquote); [now left|]. right.
  destruct (Ascii.eqb_spec c "'"); [now left|]. right.
  now split.
Qed.

Lemma markup_is_escaped (c : ascii) : isEscaped c = false -> isMarkup c = false.
Proof.
  unfold isEscaped, isMarkup. destruct (Ascii.eqb c "&"); simpl; [discriminate|].
  now intros H.
Qed.

(** The escaped text holds no [<], no [>], no double quote and no apostrophe:
    it cannot open a tag or leave an attribute value. *)
Theorem escapeHtml_leaves_no_markup (text : string) :
  Js.anyChar isMarkup (escapeHtml text) = false.
Proof.
  induction text as [|c text IH]; [reflexivity|].
  simpl escapeHtml. rewrite anyChar_append, IH, orb_false_r.
  destruct (escapeChar_cases c)
    as [[_ ->]|[[_ ->]|[[_ ->]|[[_ ->]|[[_ ->]|[Hc ->]]]]]]; try reflexivity.
  simpl. rewrite (markup_is_escaped _ Hc). reflexivity.
Qed.

(** A text without the five characters is returned as it is. *)
Lemma escapeHtml_clean (text : string) :
  Js.anyChar isEscaped text = false -> escapeHtml text = text.
Proof.
  induction text as [|c text IH]; [reflexivity|].
  simpl. intros H. apply orb_false_iff in H. destruct H as [Hc Ht].
  destruct (escapeChar_cases c)
    as [[-> _]|[[-> _]|[[-> _]|[[-> _]|[[-> _]|[_ ->]]]]]]; try discriminate Hc.
  simpl. now rewrite IH.
Qed.

(** Escaping loses nothing: two texts with the same escaped form are the same
    text. *)
Theorem escapeHtml_injective (a b : string) : escapeHtml a = escapeHtml b -> a = b.
Proof.
  revert b. induction a as [|c a IH]; intros [|d b] H.
  - reflexivity.
  - cbn [escapeHtml] in H.
    destruct (escapeChar_cases d)
      as [[_ E]|[[_ E]|[[_ E]|[[_ E]|[[_ E]|[_ E]]]]]]; rewrite E in H; discriminate H.
  - cbn [escapeHtml] in H.
    destruct (escapeChar_cases c)
      as [[_ E]|[[_ E]|[[_ E]|[[_ E]|[[_ E]|[_ E]]]]]]; rewrite E in H; discriminate H.
  - cbn [escapeHtml] in H.
    destruct (escapeChar_cases c)
      as [[-> Ec]|[[-> Ec]|[[-> Ec]|[[-> Ec]|[[-> Ec]|[Hc Ec]]]]]];
      destruct (escapeChar_cases d)
        as [[-> Ed]|[[-> Ed]|[[-> Ed]|[[-> Ed]|[[-> Ed]|[Hd Ed]]]]]];
      rewrite ?Ec, ?Ed in H; simpl in H; try discriminate H;
      injection H as H;
      repeat match goal with
             | E : _ = _ :> ascii |- _ => subst
             end;
      try discriminate Hc; try discriminate Hd;
      f_equal; apply IH; assumption.
Qed.

Lemma utf8Length_bounds (s : string) :
  (String.length s <= Js.utf8Length s <= 2 * String.length s)%nat.
Proof.
  induction s as [|c s IH]; simpl; [lia|].
  destruct (nat_of_ascii c <? 128)%nat; lia.
Qed.

(** A code unit takes from one to three bytes in UTF-8 (at most two in the
    range of the embedding): a content whose length in code units is at most
    a third of the maximum size is accepted, a content of more code units
    than the maximum size is rejected. *)
Theorem validateFileContent_by_length (formatBytes : Z -> string) (content : string)
  (maxSize : Z) :
  (3 * Z.of_nat (String.length content) <= maxSize ->
   validateFileContent formatBytes content maxSize = inr tt)
  /\ (maxSize < Z.of_nat (String.length content) ->
      throws (validateFileContent formatBytes content maxSize)).
Proof.
  pose proof (utf8Length_bounds content) as Hb.
  unfold validateFileContent. cbv zeta. split; intros H.
  - now replace (maxSize <? Z.of_nat (Js.utf8Length content)) with false
      by (symmetry; apply Z.ltb_ge; lia).
  - replace (maxSize <? Z.of_nat (Js.utf8Length content)) with true
      by (symmetry; apply Z.ltb_lt; lia).
    apply throws_inl.
Qed.

End TextFacts.

(* ------------------------------------------------------------------------- *)
(** ** callLLM and the stored token *)

Section CallFacts.

Import Llm.

Context {Num : Type}.

Variable parseProtocol : string -> option string.
Variables defaultTemperature defaultMaxTokens : Num.
Variable fetchOpenAI : Fetch Num ResponseOpenAI.
Variable fetchOllama : Fetch Num ResponseOllama.

Local Abbreviation call :=
  (callLLM parseProtocol defaultTemperature defaultMaxTokens fetchOpenAI fetchOllama).

(** Once a custom endpoint is given, the base URL and the compatibility mode
    have no part in the call: with any other values for them the result is the
    same. *)
Theorem custom_endpoint_overrides_base_url (options : CallOptions Num)
  (otherUrl otherCompat : string) :
  present (customEndpoint options) = true ->
  call (mkCallOptions otherUrl otherCompat (model options) (token options)
          (messages options) (customEndpoint options) (temperature options)
          (maxTokens options) (timeout options))
  = call options.
Proof.
  intros H. unfold callLLM. simpl. rewrite H. reflexivity.
Qed.

Lemma stripTrailingSlash_added (url : string) : stripTrailingSlash (url ++ "/") = url.
Proof.
  induction url as [|c url IH]; [reflexivity|].
  change (String c url ++ "/") with (String c (url ++ "/")).
  cbn [stripTrailingSlash]. rewrite IH.
  destruct (url ++ "/") eqn:E; [|reflexivity].
  destruct url; discriminate E.
Qed.

Lemma stripTrailingSlash_none (url : string) :
  Js.lastChar url <> Some "/"%char -> stripTrailingSlash url = url.
Proof.
  induction url as [|c url IH]; [reflexivity|].
  destruct url as [|d url].
  - simpl. intros H. destruct (Ascii.eqb_spec c "/"); [subst; contradiction|reflexivity].
  - intros H. cbn [stripTrailingSlash]. f_equal. apply IH. exact H.
Qed.

Lemma validateUrl_not_blank (url : string) :
  Utils.validateUrl parseProtocol url = true -> Js.blank url = false.
Proof. unfold Utils.validateUrl. destruct (Js.blank url); [discriminate | reflexivity]. Qed.

(** A slash at the end of the base URL makes no difference: when the base URL
    is valid with and without it, both spellings give the same call. *)
Theorem trailing_slash_of_base_url_is_ignored (options : CallOptions Num) :
  Js.lastChar (apiUrl options) <> Some "/"%char ->
  Utils.validateUrl parseProtocol (apiUrl options) = true ->
  Utils.validateUrl parseProtocol (apiUrl options ++ "/") = true ->
  call (mkCallOptions (apiUrl options ++ "/") (apiCompat options) (model options)
          (token options) (messages options) (customEndpoint options)
          (temperature options) (maxTokens options) (timeout options))
  = call options.
Proof.
  intros Hlast Hvalid Hvalid'. unfold callLLM. simpl.
  rewrite Hvalid, Hvalid'.
  rewrite (validateUrl_not_blank _ Hvalid), (validateUrl_not_blank _ Hvalid').
  rewrite stripTrailingSlash_added, (stripTrailingSlash_none _ Hlast).
  reflexivity.
Qed.

(** The token that [setSecretToken] leaves in the store is the one that
    reaches the request: a value that is not blank is sent as a bearer token,
    a blank value removes the stored token and no [Authorization] header is
    sent; other secrets are not touched. *)
Theorem stored_token_reaches_the_header (value : string) (secrets : Secrets) :
  requestHeaders (getSecretToken (setSecretToken value secrets))
  = ("Content-Type", "application/json")
      :: (if Js.blank value then [] else [("Authorization", "Bearer " ++ value)])
  /\ forall key, key <> SECRET_KEY -> setSecretToken value secrets key = secrets key.
Proof.
  unfold setSecretToken, getSecretToken, requestHeaders. split.
  - destruct (Js.blank value) eqn:E; simpl; [reflexivity|].
    unfold present. rewrite E. reflexivity.
  - intros key Hkey. apply String.eqb_neq in Hkey.
    destruct (Js.blank value); simpl;
      unfold secretsStore, secretsDelete; now rewrite Hkey.
Qed.

End CallFacts.

Lemma custom_endpoint_overrides_base_url_witness :
  let options :=
    Llm.mkCallOptions "" "ollama" "llama3.2" None [msg user "hi"]
      (Some "https://api.example.com/v1/chat/completions") (Some tt) (Some tt) None in
  let answers : Llm.Fetch unit Llm.ResponseOpenAI :=
    fun url _ =>
      if (url =? "https://api.example.com/v1/chat/completions")%string
      then Llm.RespondsAfter 5
             (Llm.mkResponse true 200%N "OK" ""
                (inr (Llm.mkResponseOpenAI
                        (Some [Llm.mkChoice (Some (Llm.mkResponseMessage (Some "hello")))]))))
      else Llm.NeverResponds in
  Llm.present (Llm.customEndpoint options) = true
  /\ Llm.callLLM (fun _ => Some "https:") tt tt answers (fun _ _ => Llm.NeverResponds)
       options
     = inr "hello"
  /\ Llm.callLLM (fun _ => Some "https:") tt tt answers (fun _ _ => Llm.NeverResponds)
       (Llm.mkCallOptions "http://localhost:11434" "openai" "llama3.2" None [msg user "hi"]
          (Some "https://api.example.com/v1/chat/completions") (Some tt) (Some tt) None)
     = inr "hello".
Proof.
  intros options answers. split; [reflexivity|]. split; [reflexivity|].
  refine (eq_trans
            (custom_endpoint_overrides_base_url (fun _ => Some "https:") tt tt answers
               (fun _ _ => Llm.NeverResponds) options "http://localhost:11434" "openai"
               eq_refl) _).
  reflexivity.
Defined.

Lemma trailing_slash_of_base_url_is_ignored_witness :
  let options :=
    Llm.mkCallOptions "http://localhost:11434" "ollama" "llama3.2" None [msg user "hi"]
      None (Some tt) (Some tt) (Some 1000) in
  let answers : Llm.Fetch unit Llm.ResponseOllama :=
    fun url _ =>
      if (url =? "http://localhost:11434/api/chat")%string
      then Llm.RespondsAfter 5
             (Llm.mkResponse true 200%N "OK" ""
                (inr (Llm.mkResponseOllama (Some (Llm.mkResponseMessage (Some "hello"))))))
      else Llm.NeverResponds in
  Js.lastChar (Llm.apiUrl options) <> Some "/"%char
  /\ Utils.validateUrl (fun _ => Some "http:") (Llm.apiUrl options) = true
  /\ Utils.validateUrl (fun _ => Some "http:") (Llm.apiUrl options ++ "/") = true
  /\ Llm.callLLM (fun _ => Some "http:") tt tt (fun _ _ => Llm.NeverResponds) answers
       (Llm.mkCallOptions "http://localhost:11434/" "ollama" "llama3.2" None
          [msg user "hi"] None (Some tt) (Some tt) (Some 1000))
     = inr "hello".
Proof.
  intros options answers.
  assert (Hlast : Js.lastChar (Llm.apiUrl options) <> Some "/"%char)
    by (vm_compute; discriminate).
  split; [exact Hlast|]. split; [reflexivity|]. split; [reflexivity|].
  refine (eq_trans
            (trailing_slash_of_base_url_is_ignored (fun _ => Some "http:") tt tt
               (fun _ _ => Llm.NeverResponds) answers options Hlast eq_refl eq_refl) _).
  reflexivity.
Defined.

(* ------------------------------------------------------------------------- *)
(** ** The conversation handler, on blank input and on a reply *)

Section ReplyFacts.

Import ChatPanel.

Context {Num : Type}.

Variable config : LLMConfig Num.
Variable handleCommand : string -> Panel -> Panel.

Local Abbreviation optionsFor history :=
  (mkOptions (apiUrl config) (model config) (token config) history
     (temperature config) (maxTokens config) (requestTimeout config)).

Local Abbreviation trimmed history :=
  (Utils.trimMessageHistory Utils.chatRole history (maxHistoryMessages config)).

Lemma post_suggestions (files : list File.Suggestion) (p : Panel) :
  fold_left (fun q file => post (FileSuggest file) q) files p
  = mkPanel (messages p) (posted p ++ map FileSuggest files) (errorsShown p).
Proof.
  revert p. induction files as [|f files IH]; intros p; simpl.
  - rewrite app_nil_r. now destruct p.
  - rewrite IH. simpl. now rewrite <- app_assoc.
Qed.

Lemma onUserMessage_reply (callLLM : LLMCallOptions Num -> Js.Error + string)
  (text : string) (p : Panel) (reply : string) :
  Js.truthy (Js.trim text) = true ->
  Js.startsWith (Js.trim text) "/" = false ->
  callLLM (optionsFor (trimmed (messages p ++ [msg user (Js.trim text)]))) = inr reply ->
  onUserMessage config callLLM handleCommand text p
  = mkPanel
      (trimmed (messages p ++ [msg user (Js.trim text)]) ++ [msg assistant reply])
      (posted p ++ ChatAppend assistant reply :: map FileSuggest (extractAllFileFences reply))
      (errorsShown p).
Proof.
  intros Htext Hcommand Hcall. unfold onUserMessage.
  rewrite Htext, Hcommand. simpl. unfold msg in Hcall. rewrite Hcall.
  rewrite post_suggestions. simpl. now rewrite <- app_assoc.
Qed.

(** A text of white space only changes nothing: no turn is recorded, nothing
    is posted, and neither the model nor a command is called. *)
Theorem blank_input_is_ignored (callLLM : LLMCallOptions Num -> Js.Error + string)
  (text : string) (p : Panel) :
  Js.allChars Js.isWhiteSpace text = true ->
  onUserMessage config callLLM handleCommand text p = p.
Proof.
  intros H. unfold onUserMessage. now rewrite (trim_white _ H).
Qed.

(** When the model call returns a reply, the history is the trimmed history
    that was sent followed by the assistant's turn, and the webview receives
    the reply and then one suggestion for each file fence of the reply, in the
    order of the fences; no error is shown. *)
Theorem reply_is_recorded_and_suggested
  (callLLM : LLMCallOptions Num -> Js.Error + string)
  (text : string) (p : Panel) (reply : string) :
  Js.truthy (Js.trim text) = true ->
  Js.startsWith (Js.trim text) "/" = false ->
  callLLM (optionsFor (trimmed (messages p ++ [msg user (Js.trim text)]))) = inr reply ->
  let p' := onUserMessage config callLLM handleCommand text p in
  messages p'
  = (trimmed (messages p ++ [msg user (Js.trim text)]) ++ [msg assistant reply])%list
  /\ posted p'
     = (posted p
          ++ ChatAppend assistant reply :: map FileSuggest (extractAllFileFences reply))%list
  /\ errorsShown p' = errorsShown p.
Proof.
  intros Htext Hcommand Hcall p'. unfold p'.
  rewrite (onUserMessage_reply callLLM text p reply Htext Hcommand Hcall). now simpl.
Qed.

(** The whole round with the OpenAI-compatible call: with a model name, a
    valid API URL and a timeout that the timer of the runtime takes as it is
    (from 1 to 2147483647 ms), when the server answers in time with a success
    status and a first choice of non-empty content, the assistant's turn with
    the trimmed content is appended to the history that was sent. *)
Theorem answer_of_the_server_becomes_assistant_turn
  (parseProtocol : string -> option string) (fetch : Llm.Fetch Num Llm.ResponseOpenAI)
  (text : string) (p : Panel)
  (ms : Z) (r : Llm.Response Llm.ResponseOpenAI) (body : Llm.ResponseOpenAI)
  (ch : Llm.Choice) (more : list Llm.Choice) (m : Llm.ResponseMessage) (c : string) :
  Js.truthy (Js.trim text) = true ->
  Js.startsWith (Js.trim text) "/" = false ->
  Js.blank (model config) = false ->
  Utils.validateUrl parseProtocol (apiUrl config) = true ->
  fetch (apiUrl config)
    (Llm.openAIInit (model config) (trimmed (messages p ++ [msg user (Js.trim text)]))
       (Llm.requestHeaders (Some (token config))) (temperature config) (maxTokens config))
  = Llm.RespondsAfter ms r ->
  1 <= requestTimeout config <= Js.TIMEOUT_MAX ->
  ms < requestTimeout config ->
  Llm.ok r = true ->
  Llm.json r = inr body ->
  Llm.choices body = Some (ch :: more) ->
  Llm.choiceMessage ch = Some m ->
  Llm.messageContent m = Some c ->
  Js.truthy c = true ->
  let p' :=
    onUserMessage config (LlmOpenAIOnly.callLLM parseProtocol fetch) handleCommand text p in
  messages p'
  = (trimmed (messages p ++ [msg user (Js.trim text)]) ++ [msg assistant (Js.trim c)])%list
  /\ posted p'
     = (posted p
          ++ ChatAppend assistant (Js.trim c)
               :: map FileSuggest (extractAllFileFences (Js.trim c)))%list
  /\ errorsShown p' = errorsShown p.
Proof.
  intros Htext Hcommand Hmodel Hurl Hfetch Hrange Hms Hok Hjson Hchoices Hch Hm Hc p'.
  assert (Hcall : LlmOpenAIOnly.callLLM parseProtocol fetch
                    (optionsFor (trimmed (messages p ++ [msg user (Js.trim text)])))
                  = inr (Js.trim c)).
  { unfold LlmOpenAIOnly.callLLM. simpl.
    rewrite Hmodel, (validateUrl_not_blank _ _ Hurl), Hurl. simpl.
    unfold Llm.callOpenAIEndpoint. rewrite Hfetch. simpl.
    replace (Js.timerDelay (requestTimeout config)) with (requestTimeout config)
      by (unfold Js.timerDelay;
          now rewrite (proj2 (Z.leb_le _ _) (proj1 Hrange)),
                      (proj2 (Z.leb_le _ _) (proj2 Hrange))).
    replace (ms <? requestTimeout config) with true by (symmetry; now apply Z.ltb_lt).
    unfold Llm.readOpenAI. rewrite Hok, Hjson, Hchoices. simpl.
    now rewrite Hch, Hm, Hc. }
  unfold p'.
  rewrite (onUserMessage_reply _ text p (Js.trim c) Htext Hcommand Hcall). now simpl.
Qed.

End ReplyFacts.

Lemma blank_input_is_ignored_witness :
  let config := ChatPanel.mkConfig "http://localhost:11434/v1/chat/completions" "ollama"
                  "llama3.2" tt tt 50 120000 in
  let p := ChatPanel.mkPanel [msg system "S"] [] [] in
  Js.allChars Js.isWhiteSpace ("  " ++ Js.chr Js.lf) = true
  /\ ChatPanel.onUserMessage config (fun _ => inr "never asked") (fun _ q => q)
       ("  " ++ Js.chr Js.lf) p
     = p.
Proof.
  intros config p. split; [reflexivity|].
  apply (blank_input_is_ignored config (fun _ q => q) (fun _ => inr "never asked")).
  reflexivity.
Defined.

Lemma reply_is_recorded_and_suggested_witness :
  let config := ChatPanel.mkConfig "http://localhost:11434/v1/chat/completions" "ollama"
                  "llama3.2" tt tt 50 120000 in
  let reply := "Here it is: " ++ ChatPanel.fence "a/b.txt" ChatPanel.helloWorld in
  let callLLM : ChatPanel.LLMCallOptions unit -> Js.Error + string := fun _ => inr reply in
  let p := ChatPanel.mkPanel [msg system "S"] [] [] in
  let p' := ChatPanel.onUserMessage config callLLM (fun _ q => q) "write it" p in
  Js.truthy (Js.trim "write it") = true
  /\ Js.startsWith (Js.trim "write it") "/" = false
  /\ ChatPanel.messages p' = [msg system "S"; msg user "write it"; msg assistant reply]
  /\ ChatPanel.posted p'
     = [ChatPanel.ChatAppend assistant reply;
        ChatPanel.FileSuggest (File.mk "a/b.txt" ChatPanel.helloWorld)].
Proof.
  intros config reply callLLM p p'.
  pose proof (reply_is_recorded_and_suggested config (fun _ q => q) callLLM "write it" p
                reply eq_refl eq_refl eq_refl) as (Hmessages & Hposted & _).
  split; [reflexivity|]. split; [reflexivity|].
  split; [exact Hmessages | exact Hposted].
Defined.

(** The conversation [system S], the input [hi], the answer [hello]. *)
Lemma answer_of_the_server_becomes_assistant_turn_witness :
  let config := ChatPanel.mkConfig "http://localhost:11434/v1/chat/completions" "ollama"
                  "llama3.2" tt tt 50 120000 in
  let body := Llm.mkResponseOpenAI
                (Some [Llm.mkChoice (Some (Llm.mkResponseMessage (Some "hello")))]) in
  let r := Llm.mkResponse true 200%N "OK" "" (inr body) in
  let fetch : Llm.Fetch unit Llm.ResponseOpenAI := fun _ _ => Llm.RespondsAfter 10 r in
  let p := ChatPanel.mkPanel [msg system "S"] [] [] in
  let p' :=
    ChatPanel.onUserMessage config (LlmOpenAIOnly.callLLM (fun _ => Some "http:") fetch)
      (fun _ q => q) "hi" p in
  Js.blank (ChatPanel.model config) = false
  /\ Utils.validateUrl (fun _ => Some "http:") (ChatPanel.apiUrl config) = true
  /\ 1 <= ChatPanel.requestTimeout config <= Js.TIMEOUT_MAX
  /\ 10 < ChatPanel.requestTimeout config
  /\ ChatPanel.messages p' = [msg system "S"; msg user "hi"; msg assistant "hello"]
  /\ ChatPanel.posted p' = [ChatPanel.ChatAppend assistant "hello"].
Proof.
  intros config body r fetch p p'.
  assert (Hms : 10 < ChatPanel.requestTimeout config) by (simpl; lia).
  assert (Hrange : 1 <= ChatPanel.requestTimeout config <= Js.TIMEOUT_MAX)
    by (unfold Js.TIMEOUT_MAX; simpl; lia).
  pose proof (answer_of_the_server_becomes_assistant_turn config (fun _ q => q)
                (fun _ => Some "http:") fetch "hi" p 10 r body
                (Llm.mkChoice (Some (Llm.mkResponseMessage (Some "hello")))) []
                (Llm.mkResponseMessage (Some "hello")) "hello"
                eq_refl eq_refl eq_refl eq_refl eq_refl Hrange Hms eq_refl eq_refl
                eq_refl eq_refl eq_refl eq_refl) as (Hmessages & Hposted & _).
  split; [reflexivity|]. split; [reflexivity|]. split; [exact Hrange|]. split; [exact Hms|].
  split; [exact Hmessages | exact Hposted].
Defined.

(* ------------------------------------------------------------------------- *)
(** ** The slash commands *)

Section CommandFacts.

Import ChatPanel Commands.

Variable workspace : Workspace.

Lemma runCommand_effect (cmd : string) (args : list string) (p p' : Panel) :
  runCommand workspace cmd args p = inr p' ->
  errorsShown p' = errorsShown p
  /\ (exists m, posted p' = (posted p ++ [m])%list)
  /\ (messages p' = messages p
      \/ exists filePath text,
           readFile workspace filePath = inr text
           /\ messages p' = (messages p ++ [msg user (fileTurn filePath text)])%list).
Proof.
  assert (Hpost : forall m,
             errorsShown (post m p) = errorsShown p
             /\ (exists m', posted (post m p) = (posted p ++ [m'])%list)
             /\ (messages (post m p) = messages p
                 \/ exists filePath text,
                      readFile workspace filePath = inr text
                      /\ messages (post m p)
                         = (messages p ++ [msg user (fileTurn filePath text)])%list)).
  { intros m. split; [reflexivity|]. split; [now exists m | now left]. }
  unfold runCommand.
  destruct (cmd =? "read")%string.
  { unfold commandReadFile. destruct args as [|a args].
    - intros H. injection H as <-. apply Hpost.
    - destruct (readFile workspace (Js.join " " (a :: args))) as [e|text] eqn:E;
        [discriminate|].
      intros H. injection H as <-. simpl.
      split; [reflexivity|]. split; [now eexists|]. right.
      now exists (Js.join " " (a :: args)), text. }
  destruct (cmd =? "list")%string.
  { unfold commandListFiles.
    destruct (listFiles workspace _) as [e|[|f files]]; [discriminate| |];
      intros H; injection H as <-; apply Hpost. }
  destruct (cmd =? "search")%string.
  { unfold commandSearchFiles. destruct args as [|a args].
    - intros H. injection H as <-. apply Hpost.
    - destruct (findFiles workspace _ 50) as [e|[|f files]]; [discriminate| |];
        intros H; injection H as <-; apply Hpost. }
  destruct ((cmd =? "workspace")%string || (cmd =? "info")%string).
  { unfold commandWorkspaceInfo. destruct (metadata workspace); [discriminate|].
    intros H. injection H as <-. apply Hpost. }
  destruct (cmd =? "help")%string; intros H; injection H as <-; apply Hpost.
Qed.

Lemma handleCommand_effect (command : string) (p : Panel) :
  errorsShown (handleCommand workspace command p) = errorsShown p
  /\ (exists m, posted (handleCommand workspace command p) = (posted p ++ [m])%list)
  /\ (messages (handleCommand workspace command p) = messages p
      \/ exists filePath text,
           readFile workspace filePath = inr text
           /\ messages (handleCommand workspace command p)
              = (messages p ++ [msg user (fileTurn filePath text)])%list).
Proof.
  unfold handleCommand.
  destruct (runCommand workspace _ _ p) as [e|p'] eqn:E.
  - split; [reflexivity|]. split; [now eexists | now left].
  - now apply runCommand_effect in E.
Qed.

(** The conversation after a command: only [read] with a path whose file is
    read adds a turn. *)
Lemma runCommand_conversation (cmd : string) (args : list string) (p : Panel) :
  messages
    match runCommand workspace cmd args p with
    | inr p' => p'
    | inl error => post (ChatError (Js.message error)) p
    end
  = if (cmd =? "read")%string then
      match args with
      | [] => messages p
      | _ :: _ =>
          match readFile workspace (Js.join " " args) with
          | inr text => (messages p ++ [msg user (fileTurn (Js.join " " args) text)])%list
          | inl _ => messages p
          end
      end
    else messages p.
Proof.
  unfold runCommand.
  destruct (cmd =? "read")%string.
  { unfold commandReadFile. destruct args as [|a args]; [reflexivity|].
    now destruct (readFile workspace (Js.join " " (a :: args))). }
  destruct (cmd =? "list")%string.
  { unfold commandListFiles. now destruct (listFiles workspace _) as [e|[|f files]]. }
  destruct (cmd =? "search")%string.
  { unfold commandSearchFiles. destruct args as [|a args]; [reflexivity|].
    now destruct (findFiles workspace _ 50) as [e|[|f files]]. }
  destruct ((cmd =? "workspace")%string || (cmd =? "info")%string).
  { unfold commandWorkspaceInfo. now destruct (metadata workspace). }
  now destruct (cmd =? "help")%string.
Qed.

(** Every command, known or not, failing or not, posts exactly one message
    to the webview and shows no notification.  The conversation is left as it
    was, except by [read] (in any letter case) with a path whose file is read:
    that command appends exactly the one user turn that carries the text of
    the file.  A [read] without a path, a [read] that fails and every other
    command leave the conversation as it was. *)
Theorem command_posts_once_and_only_read_extends (command : string) (p : Panel) :
  let p' := handleCommand workspace command p in
  let parts := Js.splitWhiteSpace (Js.drop 1 command) in
  let filePath := Js.join " " (tl parts) in
  errorsShown p' = errorsShown p
  /\ (exists m, posted p' = (posted p ++ [m])%list)
  /\ messages p'
     = if (Js.toLowerCase (hd "" parts) =? "read")%string then
         match tl parts with
         | [] => messages p
         | _ :: _ =>
             match readFile workspace filePath with
             | inr text => (messages p ++ [msg user (fileTurn filePath text)])%list
             | inl _ => messages p
             end
         end
       else messages p.
Proof.
  intros p' parts filePath.
  destruct (handleCommand_effect command p) as (Herrors & Hposted & _).
  split; [exact Herrors|]. split; [exact Hposted|].
  exact (runCommand_conversation (Js.toLowerCase (hd "" parts)) (tl parts) p).
Qed.

Lemma append_assoc (a b c : string) : (a ++ b) ++ c = a ++ b ++ c.
Proof. induction a as [|x a IH]; simpl; [reflexivity | now rewrite IH]. Qed.

Lemma splitLoop_word (word : string) :
  Js.anyChar Js.isWhiteSpace word = false ->
  forall cur inSeparator, Js.splitLoop word cur inSeparator = [cur ++ word].
Proof.
  induction word as [|c word IH]; intros H cur flag; simpl.
  - now rewrite append_empty.
  - simpl in H. apply orb_false_iff in H. destruct H as [Hc Hw].
    rewrite Hc, (IH Hw), append_assoc. reflexivity.
Qed.

Lemma splitLoop_first_word (word others : string) :
  Js.anyChar Js.isWhiteSpace word = false ->
  forall cur,
    Js.splitLoop (word ++ String " " others) cur false
    = (cur ++ word) :: Js.splitLoop others "" true.
Proof.
  induction word as [|c word IH]; intros H cur; simpl.
  - now rewrite append_empty.
  - simpl in H. apply orb_false_iff in H. destruct H as [Hc Hw].
    rewrite Hc, (IH Hw), append_assoc. reflexivity.
Qed.

(** A command word and one argument without white space. *)
Lemma handleCommand_one_argument (word argument : string) (p : Panel) :
  Js.anyChar Js.isWhiteSpace word = false ->
  Js.anyChar Js.isWhiteSpace argument = false ->
  handleCommand workspace ("/" ++ word ++ " " ++ argument) p
  = match runCommand workspace (Js.toLowerCase word) [argument] p with
    | inr p' => p'
    | inl error => post (ChatError (Js.message error)) p
    end.
Proof.
  intros Hw Ha. unfold handleCommand.
  change (Js.drop 1 ("/" ++ word ++ " " ++ argument)) with (word ++ String " " argument).
  unfold Js.splitWhiteSpace.
  rewrite (splitLoop_first_word _ _ Hw), (splitLoop_word _ Ha). reflexivity.
Qed.

End CommandFacts.

(* ------------------------------------------------------------------------- *)
(** ** The panel and the files of the workspace *)

Section SessionFacts.

Import ChatPanel Session Vocabulary.

Context {Num : Type}.

(** [/read] (in any letter case) with a path that the validation rejects
    posts the error of the validation and nothing else: the conversation is
    as before and the result does not depend on the files. *)
Theorem read_of_a_rejected_path_reads_nothing (env : Env Num) (d : Desk)
  (word path : string) (p : Panel) (error : Js.Error) :
  Js.anyChar Js.isWhiteSpace word = false ->
  Js.toLowerCase word = "read" ->
  Js.anyChar Js.isWhiteSpace path = false ->
  Utils.validateRelativePath (host env) path = inl error ->
  Commands.handleCommand (workspaceOf env d) ("/" ++ word ++ " " ++ path) p
  = post (ChatError (Js.message error)) p.
Proof.
  intros Hword Hlower Hpath Hinvalid.
  rewrite (handleCommand_one_argument _ _ _ _ Hword Hpath), Hlower.
  unfold Commands.runCommand, Commands.commandReadFile. simpl.
  unfold Utils.readWorkspaceFile. now rewrite Hinvalid.
Qed.

(** The answer that confirms the question of [createFileWithConfirm]. *)
Local Abbreviation actionFor s uri :=
  (match files (desk s) uri with
   | Some _ => "Overwrite"
   | None => "Create"
   end).

(** A file that was created with the user's confirmation holds the content,
    is opened, and is what [readWorkspaceFile] returns for the same path; no
    other file changes. *)
Theorem created_file_is_read_back (env : Env Num) (relPath content : string) (s : State)
  (folder : Utils.Folder) :
  Utils.validateRelativePath (host env) relPath = inr tt ->
  workspaceFolder env = Some folder ->
  Utils.validateFileContent (formatBytes env) content (maxFileSize env) = inr tt ->
  (forall question,
      answer env question
      = Some (actionFor s (joinPath env (Utils.folderUri folder) relPath))) ->
  writeError env (joinPath env (Utils.folderUri folder) relPath) = None ->
  openError env (joinPath env (Utils.folderUri folder) relPath) = None ->
  let uri := joinPath env (Utils.folderUri folder) relPath in
  let s' := fst (createFileWithConfirm env relPath content s) in
  snd (createFileWithConfirm env relPath content s) = inr tt
  /\ files (desk s') uri = Some content
  /\ (forall other, other <> uri -> files (desk s') other = files (desk s) other)
  /\ opened (desk s') = (opened (desk s) ++ [uri])%list
  /\ panel s' = panel s
  /\ Utils.readWorkspaceFile (host env) (joinPath env) (readError env)
       (workspaceFolder env) (files (desk s')) relPath
     = inr content.
Proof.
  intros Hpath Hfolder Hsize Hanswer Hwrite Hopen uri s'.
  assert (Hrun : createFileWithConfirm env relPath content s
                 = (showInformationMessage (actionFor s uri ++ "d file: " ++ relPath)
                      (showTextDocument uri
                         (writeFile uri content
                            (askModal
                               (actionFor s uri ++ " file " ++ Commands.dq ++ relPath
                                  ++ Commands.dq ++ " in workspace " ++ Commands.dq
                                  ++ Utils.folderName folder ++ Commands.dq ++ "?")
                               s))),
                    inr tt)).
  { unfold createFileWithConfirm. rewrite Hpath, Hfolder, Hsize. cbv zeta.
    rewrite Hanswer. fold uri. unfold uri in Hwrite, Hopen.
    destruct (files (desk s) uri); rewrite String.eqb_refl; fold uri in Hwrite, Hopen;
      now rewrite Hwrite, Hopen. }
  unfold s'. rewrite Hrun. simpl.
  split; [reflexivity|]. split; [now rewrite String.eqb_refl|].
  split.
  { intros other Hother. apply String.eqb_neq in Hother. now rewrite Hother. }
  split; [reflexivity|]. split; [now destruct s|].
  unfold Utils.readWorkspaceFile. rewrite Hpath, Hfolder. fold uri.
  unfold Utils.fsReadFile. now rewrite String.eqb_refl.
Qed.

(** [createFileWithConfirm] changes no file unless the path and the size pass
    their validation, a workspace is open and the user answers the question
    with [Create] or [Overwrite]. *)
Theorem files_change_only_by_confirmed_write (env : Env Num) (relPath content : string)
  (s : State) :
  let s' := fst (createFileWithConfirm env relPath content s) in
  files (desk s') = files (desk s)
  \/ (Utils.validateRelativePath (host env) relPath = inr tt
      /\ Utils.validateFileContent (formatBytes env) content (maxFileSize env) = inr tt
      /\ exists folder question,
           workspaceFolder env = Some folder
           /\ (answer env question = Some "Create"
               \/ answer env question = Some "Overwrite")).
Proof.
  unfold createFileWithConfirm.
  destruct (Utils.validateRelativePath (host env) relPath) as [e|[]]; [now left|].
  destruct (workspaceFolder env) as [folder|]; [|now left].
  destruct (Utils.validateFileContent _ content _) as [e|[]]; [now left|].
  cbv zeta.
  set (uri := joinPath env (Utils.folderUri folder) relPath).
  set (action := if match files (desk s) uri with Some _ => true | None => false end
                 then "Overwrite" else "Create").
  set (question := action ++ _).
  destruct (answer env question) as [choice|] eqn:Hanswer; [|now left].
  destruct (String.eqb_spec choice action) as [->|]; [|now left].
  right. split; [reflexivity|]. split; [reflexivity|].
  exists folder, question. split; [reflexivity|].
  rewrite Hanswer. unfold action.
  destruct (files (desk s) uri); [now right | now left].
Qed.

(** *** The conversation of a panel *)

Local Abbreviation isSys := (Utils.isSystem Utils.chatRole).
Local Abbreviation notSys := (Utils.notSystem Utils.chatRole).

Lemma no_system_among_others (later : list ChatMessage) :
  forallb notSys later = true -> filter isSys later = [].
Proof.
  intros H. rewrite <- (forallb_filter_id _ _ H). apply filter_system_other.
Qed.

Lemma one_system_push (history : list ChatMessage) (m : ChatMessage) :
  notSys m = true ->
  oneSystemMessageFirst history -> oneSystemMessageFirst (history ++ [m]).
Proof.
  intros Hm (prompt & later & -> & Hlater).
  exists prompt, (later ++ [m])%list. split; [reflexivity|].
  rewrite forallb_app, Hlater. simpl. now rewrite Hm.
Qed.

Lemma one_system_trim (history : list ChatMessage) (n : Z) :
  oneSystemMessageFirst history ->
  oneSystemMessageFirst (Utils.trimMessageHistory Utils.chatRole history n).
Proof.
  intros (prompt & later & -> & Hlater).
  destruct (Z.le_gt_cases (Z.of_nat (List.length (msg system prompt :: later))) n)
    as [Hle|Hgt].
  - rewrite trim_within_bound by exact Hle. now exists prompt, later.
  - rewrite trim_beyond_bound by lia. cbn [filter].
    change (isSys (msg system prompt)) with true.
    change (notSys (msg system prompt)) with false. cbv iota.
    rewrite (no_system_among_others _ Hlater), (forallb_filter_id _ _ Hlater).
    exists prompt. eexists. split; [reflexivity|].
    unfold Js.slice. rewrite forallb_forall in *. intros x Hx. apply Hlater.
    set (k := Z.to_nat _) in Hx. rewrite <- (firstn_skipn k later).
    apply in_or_app. now right.
Qed.

Lemma onUserMessage_keeps_one_system (config : LLMConfig Num)
  (callLLM : LLMCallOptions Num -> Js.Error + string)
  (workspace : Commands.Workspace) (text : string) (p : Panel) :
  oneSystemMessageFirst (messages p) ->
  oneSystemMessageFirst
    (messages (onUserMessage config callLLM (Commands.handleCommand workspace) text p)).
Proof.
  intros H. unfold onUserMessage.
  destruct (negb (Js.truthy (Js.trim text))); [exact H|].
  destruct (Js.startsWith (Js.trim text) "/").
  - destruct (handleCommand_effect workspace (Js.trim text) p)
      as (_ & _ & [-> | (filePath & content & _ & ->)]); [exact H|].
    now apply one_system_push.
  - cbv zeta.
    assert (Hsent : oneSystemMessageFirst
                      (Utils.trimMessageHistory Utils.chatRole
                         (messages p ++ [mkMessage user (Js.trim text)])
                         (maxHistoryMessages config))).
    { apply one_system_trim. now apply one_system_push. }
    destruct (callLLM _) as [e|reply]; simpl.
    + exact Hsent.
    + rewrite post_suggestions. simpl. now apply one_system_push.
Qed.

Lemma create_keeps_conversation (env : Env Num) (relPath content : string) (s : State) :
  messages (panel (fst (createFileWithConfirm env relPath content s))) = messages (panel s).
Proof.
  unfold createFileWithConfirm.
  repeat match goal with
         | |- context [match ?x with _ => _ end] =>
             match type of x with
             | sumbool _ _ => fail 1
             | _ => destruct x eqn:?; simpl; try reflexivity
             end
         end.
Qed.

Lemma userMessage_keeps_one_system (env : Env Num) (text : string) (s : State) :
  oneSystemMessageFirst (messages (panel s)) ->
  oneSystemMessageFirst (messages (panel (userMessage env text s))).
Proof. intros H. unfold userMessage. simpl. now apply onUserMessage_keeps_one_system. Qed.

Lemma one_system_reachable (s : State) :
  reachable (Num := Num) s -> oneSystemMessageFirst (messages (panel s)).
Proof.
  induction 1 as [env d | env m s Hs IH | env text s Hs IH | env s Hs IH].
  - now exists (systemPrompt env), [].
  - destruct m as [[text|] | | [file|] | ]; simpl; try exact IH.
    + destruct (Js.truthy text); [|exact IH].
      now apply userMessage_keeps_one_system.
    + now exists (systemPrompt env), [].
    + pose proof (create_keeps_conversation env (File.path file) (File.content file) s)
        as Hc.
      destruct (createFileWithConfirm env (File.path file) (File.content file) s)
        as [s' [e|u]]; simpl in *; now rewrite Hc.
  - unfold sendMessageToChat. destruct (Js.blank text); [exact IH|].
    now apply userMessage_keeps_one_system.
  - now exists (systemPrompt env), [].
Qed.

(** In every state of a panel the conversation begins with its one system
    message and holds no other: neither a turn, nor a command, nor a reply of
    the model, nor the trimming adds, moves or removes a system message. *)
Theorem conversation_keeps_one_system_message (s : State) :
  reachable (Num := Num) s -> oneSystemMessageFirst (messages (panel s)).
Proof. apply one_system_reachable. Qed.

(** In every state of a panel and for every bound of at least two messages,
    the history that goes to the model for a new turn has at most as many
    messages as the bound, begins with the system message and ends with the
    user's turn. *)
Theorem history_sent_stays_within_bound (config : LLMConfig Num) (s : State)
  (turn : string) :
  reachable (Num := Num) s ->
  2 <= maxHistoryMessages config ->
  let sent :=
    Utils.trimMessageHistory Utils.chatRole (messages (panel s) ++ [msg user turn])
      (maxHistoryMessages config) in
  Z.of_nat (List.length sent) <= maxHistoryMessages config
  /\ hd_error sent = hd_error (messages (panel s))
  /\ exists earlier, sent = (earlier ++ [msg user turn])%list.
Proof.
  intros Hs Hbound sent.
  destruct (one_system_reachable s Hs) as (prompt & later & Hm & Hlater).
  assert (Hcount : Z.of_nat (List.length (filter isSys (messages (panel s)))) = 1).
  { rewrite Hm. cbn [filter]. change (isSys (msg system prompt)) with true.
    cbv iota. now rewrite (no_system_among_others _ Hlater). }
  assert (Hcount' : Z.of_nat
                      (List.length (filter isSys (messages (panel s) ++ [msg user turn])))
                    = 1)
    by (now rewrite systems_before_user_turn).
  split; [|split].
  - unfold sent. rewrite trim_length_min by lia. lia.
  - destruct (one_system_trim (messages (panel s) ++ [msg user turn])
                (maxHistoryMessages config)) as (prompt' & later' & Hsent & _).
    { apply one_system_push; [reflexivity|]. now exists prompt, later. }
    pose proof (proj1 (trim_partition Utils.chatRole
                         (messages (panel s) ++ [msg user turn])
                         (maxHistoryMessages config)))
      as Hkeep.
    unfold sent. rewrite Hsent in *. rewrite Hm in *. simpl in Hkeep.
    change (isSys (msg system prompt')) with true in Hkeep.
    change (isSys (msg system prompt)) with true in Hkeep. cbv iota in Hkeep.
    now injection Hkeep as ->.
  - apply trimmed_ends_with_turn. lia.
Qed.

End SessionFacts.

Lemma read_of_a_rejected_path_reads_nothing_witness :
  let p := ChatPanel.mkPanel [msg system "S"] [] [] in
  Js.anyChar Js.isWhiteSpace "READ" = false
  /\ Js.toLowerCase "READ" = "read"
  /\ Js.anyChar Js.isWhiteSpace "../secret.txt" = false
  /\ Utils.validateRelativePath (Session.host Examples.env) "../secret.txt"
     = inl (Js.newError "Path traversal (..) is not allowed")
  /\ Commands.handleCommand (Session.workspaceOf Examples.env Examples.emptyDesk)
       "/READ ../secret.txt" p
     = ChatPanel.mkPanel [msg system "S"]
         [ChatPanel.ChatError "Path traversal (..) is not allowed"] [].
Proof.
  intros p. do 4 (split; [reflexivity|]).
  apply (read_of_a_rejected_path_reads_nothing Examples.env Examples.emptyDesk
           "READ" "../secret.txt" p
           (Js.newError "Path traversal (..) is not allowed"));
    reflexivity.
Defined.

Lemma created_file_is_read_back_witness :
  let s := Session.constructed Examples.env Examples.emptyDesk in
  let s' := fst (Session.createFileWithConfirm Examples.env "src/app.ts" "let x = 1;" s) in
  Utils.validateRelativePath (Session.host Examples.env) "src/app.ts" = inr tt
  /\ Utils.validateFileContent (Session.formatBytes Examples.env) "let x = 1;"
       (Session.maxFileSize Examples.env) = inr tt
  /\ Session.files (Session.desk s') "file:///demo/src/app.ts" = Some "let x = 1;"
  /\ Session.opened (Session.desk s') = ["file:///demo/src/app.ts"]
  /\ Utils.readWorkspaceFile (Session.host Examples.env) (Session.joinPath Examples.env)
       (Session.readError Examples.env) (Session.workspaceFolder Examples.env)
       (Session.files (Session.desk s')) "src/app.ts"
     = inr "let x = 1;".
Proof.
  intros s s'.
  pose proof (created_file_is_read_back Examples.env "src/app.ts" "let x = 1;" s
                (Utils.mkFolder "demo" "file:///demo") eq_refl eq_refl eq_refl
                (fun _ => eq_refl) eq_refl eq_refl)
    as (_ & Hfile & _ & Hopened & _ & Hread).
  split; [reflexivity|]. split; [reflexivity|].
  split; [exact Hfile|]. split; [exact Hopened | exact Hread].
Defined.

Lemma conversation_keeps_one_system_message_witness :
  let s :=
    Session.receive Examples.env (Session.ChatSend (Some "hi"))
      (Session.constructed Examples.env Examples.emptyDesk) in
  Session.reachable (Num := unit) s
  /\ ChatPanel.messages (Session.panel s)
     = [msg system "S"; msg user "hi"; msg assistant "hello"]
  /\ Vocabulary.oneSystemMessageFirst (ChatPanel.messages (Session.panel s)).
Proof.
  intros s.
  assert (Hs : Session.reachable (Num := unit) s)
    by (apply Session.reach_receive, Session.reach_open).
  split; [exact Hs|]. split; [reflexivity|].
  exact (conversation_keeps_one_system_message s Hs).
Defined.

Lemma history_sent_stays_within_bound_witness :
  let s :=
    Session.receive Examples.env (Session.ChatSend (Some "hi"))
      (Session.constructed Examples.env Examples.emptyDesk) in
  let small := ChatPanel.mkConfig "http://localhost:11434/v1/chat/completions" "ollama"
                 "llama3.2" tt tt 2 120000 in
  Session.reachable (Num := unit) s
  /\ 2 <= ChatPanel.maxHistoryMessages small
  /\ Utils.trimMessageHistory Utils.chatRole
       (ChatPanel.messages (Session.panel s) ++ [msg user "again"])
       (ChatPanel.maxHistoryMessages small)
     = [msg system "S"; msg user "again"]
  /\ Z.of_nat
       (List.length
          (Utils.trimMessageHistory Utils.chatRole
             (ChatPanel.messages (Session.panel s) ++ [msg user "again"])
             (ChatPanel.maxHistoryMessages small)))
     <= ChatPanel.maxHistoryMessages small.
Proof.
  intros s small.
  assert (Hs : Session.reachable (Num := unit) s)
    by (apply Session.reach_receive, Session.reach_open).
  assert (Hbound : 2 <= ChatPanel.maxHistoryMessages small) by (simpl; lia).
  split; [exact Hs|]. split; [exact Hbound|]. split; [reflexivity|].
  exact (proj1 (history_sent_stays_within_bound small s "again" Hs Hbound)).
Defined.

(* ------------------------------------------------------------------------- *)
(** ** Suggestion extraction, for every well-formed reply *)

Section FenceMore.

Import RegExp ChatPanel Vocabulary.

Lemma length_append (a b : string) :
  String.length (a ++ b) = (String.length a + String.length b)%nat.
Proof. induction a as [|c a IH]; simpl; [reflexivity | now rewrite IH]. Qed.

Section Runs.

Context {R : Type} (class : ascii -> bool) (k : string -> string -> option R).

(** A greedy class that runs into a character outside the class takes the
    whole run, when what follows the pattern matches there. *)
Lemma greedyStar_run (run : string) (stop : ascii) (s taken : string) (r : R) :
  Js.allChars class run = true ->
  class stop = false ->
  k (taken ++ run) (String stop s) = Some r ->
  greedyStar class k taken (run ++ String stop s) = Some r.
Proof.
  revert taken. induction run as [|c run IH]; intros taken Hrun Hstop Hk; simpl.
  - rewrite Hstop. now rewrite append_empty in Hk.
  - simpl in Hrun. apply andb_true_iff in Hrun. destruct Hrun as [Hc Hrun].
    rewrite Hc, (IH (taken ++ Js.chr c) Hrun Hstop); [reflexivity|].
    now rewrite append_assoc.
Qed.

Lemma greedyPlus_run (run : string) (stop : ascii) (s : string) (r : R) :
  Js.truthy run = true ->
  Js.allChars class run = true ->
  class stop = false ->
  k run (String stop s) = Some r ->
  greedyPlus class k (run ++ String stop s) = Some r.
Proof.
  destruct run as [|c run]; [discriminate|]. intros _ Hrun Hstop Hk.
  simpl in Hrun. apply andb_true_iff in Hrun. destruct Hrun as [Hc Hrun].
  simpl. rewrite Hc. now apply greedyStar_run.
Qed.

End Runs.

(** The lazy content group in front of the closing backticks. *)
Lemma lazyStar_until_close (captured : list string) (content after taken : string) :
  noBacktick content = true ->
  lazyStar anyChar
    (fun taken' s' => matchHere [Literal "```"] (captured ++ [taken']) s')
    taken (content ++ "```" ++ after)
  = Some (mkMatch (captured ++ [taken ++ content]) after).
Proof.
  revert taken. induction content as [|c content IH]; intros taken H.
  - rewrite append_empty. reflexivity.
  - apply noBacktick_cons in H. destruct H as [Hc Hcontent].
    change (String c content ++ "```" ++ after)
      with (String c (content ++ "```" ++ after)).
    cbn [lazyStar]. rewrite matchHere_literal.
    change "```" with (String Js.backtick "``") at 1.
    rewrite stripPrefix_first_differs by (now rewrite Ascii.eqb_sym).
    change (anyChar c) with true. cbv iota.
    rewrite (IH (taken ++ Js.chr c) Hcontent). now rewrite append_assoc.
Qed.

Lemma notQuote_dquote : notQuote Js.dquote = false.
Proof. reflexivity. Qed.

(** The pattern reads a well-formed fence back: it matches at the fence,
    captures the path and the content and stops behind the closing
    backticks. *)
Lemma fence_matches_back (path content after : string) :
  Js.truthy path = true ->
  Js.allChars notQuote path = true ->
  noBacktick content = true ->
  match content with
  | String c _ => negb (isLineBreak c)
  | EmptyString => true
  end = true ->
  matchHere fenceRegex [] (fence path content ++ after)
  = Some (mkMatch [path; content] after).
Proof.
  intros Hpath Hquote Hcontent Hfirst.
  unfold fence. rewrite !append_assoc.
  change ("```file path=" ++ Js.chr Js.dquote ++ path ++ Js.chr Js.dquote ++ Js.chr Js.lf
            ++ content ++ "```" ++ after)
    with ("```file path=" ++ Js.chr Js.dquote
            ++ (path ++ String Js.dquote (String Js.lf (content ++ "```" ++ after)))).
  unfold fenceRegex. cbn [matchHere stripPrefix append Js.chr greedyPlus greedyStar].
  change (Ascii.eqb "`" "`") with true. change (Ascii.eqb "f" "f") with true.
  change (Ascii.eqb "i" "i") with true. change (Ascii.eqb "l" "l") with true.
  change (Ascii.eqb "e" "e") with true. cbv iota.
  change (Js.isWhiteSpace " ") with true. change (Js.isWhiteSpace "p") with false.
  cbv iota.
  change (Ascii.eqb "p" "p") with true. change (Ascii.eqb "a" "a") with true.
  change (Ascii.eqb "t" "t") with true. change (Ascii.eqb "h" "h") with true.
  change (Ascii.eqb "=" "=") with true. change (Ascii.eqb Js.dquote Js.dquote) with true.
  cbv iota.
  apply greedyPlus_run; [exact Hpath | exact Hquote | exact notQuote_dquote|].
  cbn [matchHere stripPrefix app greedyPlus].
  change (Ascii.eqb Js.dquote Js.dquote) with true. cbv iota.
  change (isLineBreak Js.lf) with true. cbv iota.
  assert (Hstop : greedyStar isLineBreak
                    (fun _ s' =>
                       lazyStar anyChar
                         (fun taken s'0 => matchHere [Literal "```"] ([path] ++ [taken]) s'0)
                         "" s')
                    (Js.chr Js.lf) (content ++ "```" ++ after)
                  = lazyStar anyChar
                      (fun taken s'0 => matchHere [Literal "```"] ([path] ++ [taken]) s'0)
                      "" (content ++ "```" ++ after)).
  { destruct content as [|c content]; [reflexivity|].
    change (String c content ++ "```" ++ after)
      with (String c (content ++ "```" ++ after)).
    cbn [greedyStar]. apply negb_true_iff in Hfirst. now rewrite Hfirst. }
  etransitivity; [exact Hstop|].
  apply (lazyStar_until_close [path] content after "" Hcontent).
Qed.

Lemma wellFormed_parts (b : Block) :
  wellFormed b = true ->
  noBacktick (before b) = true
  /\ Js.truthy (blockPath b) = true
  /\ Js.allChars notQuote (blockPath b) = true
  /\ noBacktick (blockContent b) = true
  /\ match blockContent b with
     | String c _ => negb (isLineBreak c)
     | EmptyString => true
     end = true.
Proof.
  unfold wellFormed. intros H.
  repeat (apply andb_true_iff in H; destruct H as [H ?]). tauto.
Qed.

(** One turn of the loop at a well-formed block. *)
Lemma fenceLoop_block (fuel : nat) (b : Block) (others : string) :
  wellFormed b = true ->
  fenceLoop (S fuel) (renderBlock b ++ others)
  = suggestionOf b :: fenceLoop fuel others.
Proof.
  intros H. apply wellFormed_parts in H.
  destruct H as (Hbefore & Hpath & Hquote & Hcontent & Hfirst).
  unfold renderBlock. rewrite append_assoc.
  rewrite fenceLoop_unfold, (exec_skips_plain_text _ _ Hbefore), exec_unfold.
  rewrite (fence_matches_back _ _ _ Hpath Hquote Hcontent Hfirst).
  cbn [groups rest nth_error]. now rewrite Hpath.
Qed.

Lemma fence_not_empty (path content : string) : (0 < String.length (fence path content))%nat.
Proof. unfold fence. simpl. lia. Qed.

Lemma fenceLoop_blocks (blocks : list Block) (tail : string) (fuel : nat) :
  forallb wellFormed blocks = true ->
  noBacktick tail = true ->
  (String.length (renderBlocks blocks ++ tail) < fuel)%nat ->
  fenceLoop fuel (renderBlocks blocks ++ tail) = map suggestionOf blocks.
Proof.
  revert fuel. induction blocks as [|b blocks IH]; intros fuel Hall Htail Hfuel.
  - simpl. now apply fenceLoop_plain_text.
  - simpl in Hall. apply andb_true_iff in Hall. destruct Hall as [Hb Hall].
    destruct fuel as [|fuel]; [lia|].
    cbn [renderBlocks map]. rewrite append_assoc, (fenceLoop_block _ _ _ Hb).
    f_equal. apply IH; [exact Hall | exact Htail|].
    cbn [renderBlocks] in Hfuel. rewrite append_assoc, length_append in Hfuel.
    unfold renderBlock in Hfuel. rewrite length_append in Hfuel.
    pose proof (fence_not_empty (blockPath b) (blockContent b)). lia.
Qed.

(** A reply made of any number of well-formed blocks, each a stretch of text
    and a fence, and of a closing text without backticks yields exactly one
    suggestion for each block, in the order of the blocks, with the path
    trimmed and the content as it stands between the line break and the
    closing backticks. *)
Theorem extraction_reads_every_block_in_order (blocks : list Block) (tail : string) :
  forallb wellFormed blocks = true ->
  noBacktick tail = true ->
  extractAllFileFences (renderBlocks blocks ++ tail) = map suggestionOf blocks.
Proof.
  intros Hall Htail. unfold extractAllFileFences.
  apply fenceLoop_blocks; [exact Hall | exact Htail | lia].
Qed.

End FenceMore.

Lemma extraction_reads_every_block_in_order_witness :
  let blocks :=
    [ Vocabulary.mkBlock "First: " " src/a.ts " ("let a = 1;" ++ Js.chr Js.lf);
      Vocabulary.mkBlock (Js.chr Js.lf ++ "then ") "b.md" "" ] in
  forallb Vocabulary.wellFormed blocks = true
  /\ ChatPanel.noBacktick " Done." = true
  /\ ChatPanel.extractAllFileFences (Vocabulary.renderBlocks blocks ++ " Done.")
     = [File.mk "src/a.ts" ("let a = 1;" ++ Js.chr Js.lf); File.mk "b.md" ""].
Proof.
  intros blocks. split; [reflexivity|]. split; [reflexivity|].
  apply (extraction_reads_every_block_in_order blocks " Done."); reflexivity.
Defined.

(* ------------------------------------------------------------------------- *)
(** ** The webview *)

Section WebviewFacts.

Import Webview Vocabulary.

Lemma trimEnd_append (a c : string) :
  Js.truthy (Js.trimEnd c) = true -> Js.trimEnd (a ++ c) = a ++ Js.trimEnd c.
Proof.
  intros H. induction a as [|x a IH]; [reflexivity|].
  simpl. rewrite IH. destruct (a ++ Js.trimEnd c) eqn:E.
  - destruct a; [|discriminate E]. simpl in E. rewrite E in H. discriminate H.
  - simpl. now rewrite andb_false_r.
Qed.

Lemma trimEnd_white (w : string) : Js.allChars Js.isWhiteSpace w = true -> Js.trimEnd w = "".
Proof.
  induction w as [|c w IH]; [reflexivity|]. simpl. intros H.
  apply andb_true_iff in H. destruct H as [Hc Hw]. now rewrite (IH Hw), Hc.
Qed.

Lemma trimEnd_white_tail (a w : string) :
  Js.allChars Js.isWhiteSpace w = true -> Js.trimEnd (a ++ w) = Js.trimEnd a.
Proof.
  intros H. induction a as [|x a IH]; simpl; [now apply trimEnd_white|].
  now rewrite IH.
Qed.

Lemma trimEnd_keeps_absence (f : ascii -> bool) (s : string) :
  Js.anyChar f s = false -> Js.anyChar f (Js.trimEnd s) = false.
Proof.
  induction s as [|c s IH]; [reflexivity|]. simpl. intros H.
  apply orb_false_iff in H. destruct H as [Hc Hs].
  destruct (Js.isWhiteSpace c && Js.isEmpty (Js.trimEnd s)); [reflexivity|].
  simpl. now rewrite Hc, IH.
Qed.

Lemma indexOf_absent (s : string) :
  Js.anyChar isLineFeed s = false -> Js.indexOf Js.lf s = None.
Proof.
  induction s as [|c s IH]; [reflexivity|]. simpl. intros H.
  apply orb_false_iff in H. destruct H as [Hc Hs].
  unfold isLineFeed in Hc. now rewrite Hc, IH.
Qed.

Lemma indexOf_first (a b : string) :
  Js.anyChar isLineFeed a = false ->
  Js.indexOf Js.lf (a ++ String Js.lf b) = Some (String.length a).
Proof.
  induction a as [|c a IH]; [reflexivity|]. simpl. intros H.
  apply orb_false_iff in H. destruct H as [Hc Ha].
  unfold isLineFeed in Hc. now rewrite Hc, IH.
Qed.

Lemma prefix_empty (s : string) : String.prefix "" s = true.
Proof. now destruct s. Qed.

Lemma take_append (a b : string) : Js.take (String.length a) (a ++ b) = a.
Proof. induction a as [|c a IH]; simpl; [now destruct b | now rewrite IH]. Qed.

Lemma drop_append (a b : string) (n : nat) :
  Js.drop (String.length a + n) (a ++ b) = Js.drop n b.
Proof. induction a as [|c a IH]; simpl; [reflexivity | exact IH]. Qed.

(** [/write], a path, a line break and a content: the file is proposed to the
    extension with the path trimmed and with the content up to its last
    character that is not white space (the input is trimmed as a whole before
    it is read); the view shows the user's text and the notice. *)
Theorem write_command_proposes_the_file (filePath content : string) :
  Js.anyChar isLineFeed filePath = false ->
  Js.truthy (Js.trim filePath) = true ->
  Js.truthy (Js.trimEnd content) = true ->
  sendMessage ("/write " ++ filePath ++ Js.chr Js.lf ++ content)
  = mkSent
      (Some (PostFileCreate (File.mk (Js.trim filePath) (Js.trimEnd content))))
      [ShownMessage "user" ("/write " ++ filePath ++ Js.chr Js.lf ++ Js.trimEnd content);
       ShownMessage "assistant" (proposal (Js.trim filePath))]
      true.
Proof.
  intros Hline Hpath Hcontent. unfold sendMessage.
  assert (Htext : Js.trim ("/write " ++ filePath ++ Js.chr Js.lf ++ content)
                  = ("/write " ++ filePath) ++ String Js.lf (Js.trimEnd content)).
  { unfold Js.trim.
    change (Js.trimStart ("/write " ++ filePath ++ Js.chr Js.lf ++ content))
      with ("/write " ++ filePath ++ Js.chr Js.lf ++ content).
    rewrite <- !append_assoc.
    rewrite (trimEnd_append _ _ Hcontent). rewrite !append_assoc. reflexivity. }
  rewrite Htext. cbv zeta.
  change (Js.truthy (("/write " ++ filePath) ++ String Js.lf (Js.trimEnd content)))
    with true.
  assert (Hstart : Js.startsWith
                     (("/write " ++ filePath) ++ String Js.lf (Js.trimEnd content))
                     "/write " = true).
  { unfold Js.startsWith. simpl. apply prefix_empty. }
  rewrite Hstart. cbv iota. change (negb true) with false. cbv iota.
  rewrite indexOf_first by exact Hline.
  change (0 <? String.length ("/write " ++ filePath))%nat with true. cbv iota.
  assert (Hslice : Js.sliceBetween 7 (String.length ("/write " ++ filePath))
                     (("/write " ++ filePath) ++ String Js.lf (Js.trimEnd content))
                   = filePath).
  { unfold Js.sliceBetween.
    change (Js.drop 7 (("/write " ++ filePath) ++ String Js.lf (Js.trimEnd content)))
      with (filePath ++ String Js.lf (Js.trimEnd content)).
    replace (String.length ("/write " ++ filePath) - 7)%nat with (String.length filePath)
      by (simpl; lia).
    apply take_append. }
  rewrite Hslice, Hpath, drop_append. reflexivity.
Qed.

(** [/write] and a path that are followed by blank lines only are not a file
    proposal: the trimmed text is sent as a chat message. *)
Theorem write_without_content_is_a_chat_message (filePath blankLines : string) :
  Js.anyChar isLineFeed filePath = false ->
  Js.allChars Js.isWhiteSpace blankLines = true ->
  sendMessage ("/write " ++ filePath ++ Js.chr Js.lf ++ blankLines)
  = mkSent (Some (PostChatSend (Js.trim ("/write " ++ filePath)))) [] true.
Proof.
  intros Hline Hblank. unfold sendMessage.
  assert (Htext : Js.trim ("/write " ++ filePath ++ Js.chr Js.lf ++ blankLines)
                  = Js.trim ("/write " ++ filePath)).
  { unfold Js.trim.
    change (Js.trimStart ("/write " ++ filePath ++ Js.chr Js.lf ++ blankLines))
      with (("/write " ++ filePath) ++ String Js.lf blankLines).
    change (Js.trimStart ("/write " ++ filePath)) with ("/write " ++ filePath).
    apply trimEnd_white_tail. simpl. exact Hblank. }
  rewrite Htext. cbv zeta.
  assert (Hnone : Js.indexOf Js.lf (Js.trim ("/write " ++ filePath)) = None).
  { apply indexOf_absent. unfold Js.trim.
    change (Js.trimStart ("/write " ++ filePath)) with ("/write " ++ filePath).
    apply trimEnd_keeps_absence. simpl. exact Hline. }
  rewrite Hnone.
  assert (Hvisible : Js.truthy (Js.trim ("/write " ++ filePath)) = true).
  { unfold Js.trim.
    change (Js.trimStart ("/write " ++ filePath)) with ("/write " ++ filePath).
    simpl. reflexivity. }
  rewrite Hvisible. simpl. now destruct (Js.startsWith _ _).
Qed.

Lemma display_suggestions (files : list File.Suggestion) (view : list Shown) :
  display (map ChatPanel.FileSuggest files) view
  = (view
       ++ map (fun f => ShownSuggestion (File.path f) (File.content f))
            (filter (fun f => Js.truthy (File.path f)) files))%list.
Proof.
  revert view. induction files as [|f files IH]; intros view; simpl.
  - now rewrite app_nil_r.
  - unfold display in *. simpl. destruct (Js.truthy (File.path f)); simpl.
    + rewrite IH. now rewrite <- app_assoc.
    + apply IH.
Qed.

(** Of the suggestions that the panel posts for a reply, the view shows those
    with a path, in their order, and drops those whose path is empty; so a
    fence with a blank path is extracted but never offered for creation. *)
Theorem view_shows_the_suggestions_with_a_path (reply : string) (view : list Shown) :
  display (map ChatPanel.FileSuggest (ChatPanel.extractAllFileFences reply)) view
  = (view
       ++ map (fun f => ShownSuggestion (File.path f) (File.content f))
            (filter (fun f => Js.truthy (File.path f))
               (ChatPanel.extractAllFileFences reply)))%list
  /\ display (map ChatPanel.FileSuggest
                (ChatPanel.extractAllFileFences (ChatPanel.fence " " "x"))) view
     = view.
Proof.
  split; [apply display_suggestions|].
  rewrite display_suggestions. simpl. apply app_nil_r.
Qed.

End WebviewFacts.

Lemma write_command_proposes_the_file_witness :
  Js.anyChar Vocabulary.isLineFeed " notes/a.txt " = false
  /\ Js.truthy (Js.trim " notes/a.txt ") = true
  /\ Js.truthy (Js.trimEnd ("hello" ++ Js.chr Js.lf)) = true
  /\ Webview.outgoing
       (Webview.sendMessage
          ("/write " ++ " notes/a.txt " ++ Js.chr Js.lf ++ "hello" ++ Js.chr Js.lf))
     = Some (Webview.PostFileCreate (File.mk "notes/a.txt" "hello")).
Proof.
  do 3 (split; [reflexivity|]).
  rewrite (write_command_proposes_the_file " notes/a.txt " ("hello" ++ Js.chr Js.lf)
             eq_refl eq_refl eq_refl).
  reflexivity.
Defined.

Lemma write_without_content_is_a_chat_message_witness :
  Js.anyChar Vocabulary.isLineFeed "notes/a.txt" = false
  /\ Js.allChars Js.isWhiteSpace ("  " ++ Js.chr Js.lf) = true
  /\ Webview.sendMessage ("/write " ++ "notes/a.txt" ++ Js.chr Js.lf ++ "  " ++ Js.chr Js.lf)
     = Webview.mkSent (Some (Webview.PostChatSend "/write notes/a.txt")) [] true.
Proof.
  do 2 (split; [reflexivity|]).
  apply (write_without_content_is_a_chat_message "notes/a.txt" ("  " ++ Js.chr Js.lf));
    reflexivity.
Defined.

Lemma escapeHtml_injective_witness :
  Utils.escapeHtml ("a<b" ++ "&c") = Utils.escapeHtml "a<b&c"
  /\ "a<b" ++ "&c" = "a<b&c".
Proof.
  split; [reflexivity|].
  apply (escapeHtml_injective ("a<b" ++ "&c") "a<b&c"). reflexivity.
Defined.

Lemma validateFileContent_by_length_witness :
  3 * Z.of_nat (String.length "let x = 1;") <= 1048576
  /\ Utils.validateFileContent (fun _ => "some bytes") "let x = 1;" 1048576 = inr tt
  /\ 4 < Z.of_nat (String.length "let x = 1;")
  /\ Utils.throws (Utils.validateFileContent (fun _ => "some bytes") "let x = 1;" 4).
Proof.
  assert (H1 : 3 * Z.of_nat (String.length "let x = 1;") <= 1048576) by (simpl; lia).
  assert (H2 : 4 < Z.of_nat (String.length "let x = 1;")) by (simpl; lia).
  split; [exact H1|]. split.
  - exact (proj1 (validateFileContent_by_length (fun _ => "some bytes") "let x = 1;"
                    1048576) H1).
  - split; [exact H2|].
    exact (proj2 (validateFileContent_by_length (fun _ => "some bytes") "let x = 1;" 4)
             H2).
Defined.

Lemma stored_token_reaches_the_header_witness :
  Llm.requestHeaders
    (Llm.getSecretToken (Llm.setSecretToken "sk-123" (fun _ => None)))
  = [("Content-Type", "application/json"); ("Authorization", "Bearer sk-123")]
  /\ Llm.requestHeaders
       (Llm.getSecretToken
          (Llm.setSecretToken "  " (Llm.setSecretToken "sk-123" (fun _ => None))))
     = [("Content-Type", "application/json")]
  /\ "other" <> Llm.SECRET_KEY
  /\ Llm.setSecretToken "sk-123" (fun _ => Some "kept") "other" = Some "kept".
Proof.
  assert (Hkey : "other" <> Llm.SECRET_KEY) by discriminate.
  split; [exact (proj1 (stored_token_reaches_the_header "sk-123" (fun _ => None)))|].
  split.
  - exact (proj1 (stored_token_reaches_the_header "  "
                    (Llm.setSecretToken "sk-123" (fun _ => None)))).
  - split; [exact Hkey|].
    exact (proj2 (stored_token_reaches_the_header "sk-123" (fun _ => Some "kept"))
             "other" Hkey).
Defined.
